(** * HC-SR04 intruder alert: the detection loop, the capture chain and the
      webhook dispatch of [src/intruder_alert.py]

    The Python module is embedded as monadic code over an explicit [World]:
    the file system with what may be opened and removed, the clock, the
    range sensor, the installed camera tools and the webhook endpoint are
    oracles of the world, and every observable action (log line, process
    start, file removal, call of [requests.post], sleep) is appended to a
    trace. The world also records where each reading of the clock falls
    among these actions.

    Embedded: [_run_quiet], [capture_image], [send_discord], the body of
    the [while True] loop of [main] with the two locals it carries from
    one iteration to the next, the set-up and the clean-up of [main]
    around the loop, and the reading of the [SEND_PHOTO] switch. Not
    embedded: the choice of the GPIO backend and the logging set-up.

    Numbers: Python floats (distances in cm, timestamps and durations in
    seconds) are modelled as exact rationals [Q]; rounding, infinities and
    NaN are outside the model. Exceptions are those of class [Exception].
    [KeyboardInterrupt] is taken at the end of an iteration only; the
    sample interval is taken to be non-negative. *)

From Stdlib Require Import QArith Qminmax Lqa ZArith Lia String List Bool.
From stdpp Require Import base option gmap strings.

Import ListNotations.
Local Open Scope string_scope.
Local Open Scope list_scope.
Local Open Scope Q_scope.

(* ===================================================================== *)
(** ** Observable actions *)
(* ===================================================================== *)

Inductive level := INFO | WARNING | ERROR.

(** Exceptions of class [Exception] that the modelled library calls raise. *)
Inductive exn :=
| CalledProcessError (code : Z)
| TimeoutExpired
| OSError (what : string)
| RequestException (what : string).

(** The log lines of the module, with the values they interpolate. *)
Inductive logmsg :=
| TriggerSend (dist_cm cooldown : Q)       (* "TRIGGER: .. sending Discord alert" *)
| TriggerCooldown (dist_cm left : Q)       (* "TRIGGER: .. on cooldown .. NOT sending." *)
| Clear                                    (* "CLEAR: Out of range." *)
| CameraFailed                             (* "Camera: capture failed; sending text-only." *)
| NoWebhook                                (* "No valid WEBHOOK_URL set. .." *)
| DiscordSent                              (* "Discord: sent alert successfully." *)
| DiscordFailed (status : Z) (text : string) (* "Discord: failed (status) text[:200]" *)
| DiscordError (e : exn).                  (* logging.exception("Discord webhook error: ..") *)

(** The two request shapes of [requests.post] in [send_discord]; both carry
    [timeout=15]. *)
Inductive request :=
| JsonPost (url : string) (dist_cm : Q) (timeout : Q)
| MultipartPost (url : string) (dist_cm : Q) (file : string) (timeout : Q).

Inductive event :=
| EvLog (l : level) (m : logmsg)
| EvRemove (path : string)                       (* os.remove *)
| EvRun (cmd : list string) (timeout : option Q) (* subprocess.run *)
| EvPost (r : request)                           (* requests.post *)
| EvSleep (seconds : Q)                          (* time.sleep *)
| EvCapture (path : string)                      (* entry of capture_image *)
| EvSendDiscord (dist_cm : Q) (image_path : option string). (* entry of send_discord *)

(* ===================================================================== *)
(** ** The world *)
(* ===================================================================== *)

Inductive FileKind := RegularFile | Directory.

(** What a started process does: how long it runs ([None]: it never exits),
    its exit code, and the file system it leaves behind. *)
Record ProcRun := {
  duration : option Q;
  exit_code : Z;
  fs_after : gmap string FileKind
}.

(** What the endpoint answers to a request. *)
Inductive PostOutcome :=
| Response (status_code : Z) (text : string)
| PostRaises (e : exn).

Record World := {
  fs : gmap string FileKind;
  clock : nat -> Q;          (* successive readings of time.time() *)
  clock_reads : nat;
  sensor : nat -> Q;         (* successive values of sensor.distance, in 0..1 *)
  sensor_reads : nat;
  which : string -> bool;    (* shutil.which finds the tool *)
  spawn : list string -> gmap string FileKind -> option ProcRun;
                             (* [None]: the program cannot be started *)
  endpoint : nat -> request -> PostOutcome;
  posts : nat;
  trace : list event;        (* oldest first *)
  can_open : string -> bool;   (* open(path, "rb") is permitted *)
  can_remove : string -> bool; (* os.remove(path) is permitted *)
  clock_log : list nat       (* for each time.time() so far, the number of
                                events that came before it *)
}.

Definition set_fs (f : gmap string FileKind) (w : World) : World :=
  {| fs := f; clock := clock w; clock_reads := clock_reads w;
     sensor := sensor w; sensor_reads := sensor_reads w; which := which w;
     spawn := spawn w; endpoint := endpoint w; posts := posts w;
     trace := trace w;
     can_open := can_open w; can_remove := can_remove w;
     clock_log := clock_log w |}.

Definition emit (e : event) (w : World) : World :=
  {| fs := fs w; clock := clock w; clock_reads := clock_reads w;
     sensor := sensor w; sensor_reads := sensor_reads w; which := which w;
     spawn := spawn w; endpoint := endpoint w; posts := posts w;
     trace := trace w ++ [e];
     can_open := can_open w; can_remove := can_remove w;
     clock_log := clock_log w |}.

Definition tick_clock (w : World) : World :=
  {| fs := fs w; clock := clock w; clock_reads := S (clock_reads w);
     sensor := sensor w; sensor_reads := sensor_reads w; which := which w;
     spawn := spawn w; endpoint := endpoint w; posts := posts w;
     trace := trace w;
     can_open := can_open w; can_remove := can_remove w;
     clock_log := clock_log w ++ [length (trace w)] |}.

Definition tick_sensor (w : World) : World :=
  {| fs := fs w; clock := clock w; clock_reads := clock_reads w;
     sensor := sensor w; sensor_reads := S (sensor_reads w); which := which w;
     spawn := spawn w; endpoint := endpoint w; posts := posts w;
     trace := trace w;
     can_open := can_open w; can_remove := can_remove w;
     clock_log := clock_log w |}.

Definition tick_posts (w : World) : World :=
  {| fs := fs w; clock := clock w; clock_reads := clock_reads w;
     sensor := sensor w; sensor_reads := sensor_reads w; which := which w;
     spawn := spawn w; endpoint := endpoint w; posts := S (posts w);
     trace := trace w;
     can_open := can_open w; can_remove := can_remove w;
     clock_log := clock_log w |}.

(* ===================================================================== *)
(** ** The effect monad: return, raise, or block forever *)
(* ===================================================================== *)

Inductive Res (A : Type) :=
| Done (a : A) (w : World)      (* the call returned [a] *)
| Raised (e : exn) (w : World)  (* the call raised [e] *)
| Blocked (w : World).          (* the call never returns *)
Arguments Done {A} a w.
Arguments Raised {A} e w.
Arguments Blocked {A} w.

Definition M (A : Type) : Type := World -> Res A.

Definition ret {A} (a : A) : M A := fun w => Done a w.

Definition bind {A B} (m : M A) (k : A -> M B) : M B :=
  fun w => match m w with
           | Done a w' => k a w'
           | Raised e w' => Raised e w'
           | Blocked w' => Blocked w'
           end.

Definition raise {A} (e : exn) : M A := fun w => Raised e w.

(** [try: body except Exception as e: handler e] *)
Definition try_except {A} (body : M A) (handler : exn -> M A) : M A :=
  fun w => match body w with
           | Done a w' => Done a w'
           | Raised e w' => handler e w'
           | Blocked w' => Blocked w'
           end.

#[export] Instance M_ret : MRet M := @ret.
#[export] Instance M_bind : MBind M := fun A B k m => bind m k.

Definition world_of {A} (r : Res A) : World :=
  match r with Done _ w | Raised _ w | Blocked w => w end.

(* ===================================================================== *)
(** ** Library calls *)
(* ===================================================================== *)

Definition log (l : level) (m : logmsg) : M unit :=
  fun w => Done tt (emit (EvLog l m) w).

Definition mark (e : event) : M unit := fun w => Done tt (emit e w).

(** [time.time()] *)
Definition time_time : M Q :=
  fun w => Done (clock w (clock_reads w)) (tick_clock w).

(** [time.sleep(s)] for an interval [s >= 0], as the module's default of
    0.25 s is. On a negative interval [time.sleep] raises [ValueError];
    the model does not follow the module there. *)
Definition time_sleep (s : Q) : M unit := fun w => Done tt (emit (EvSleep s) w).

(** [sensor.distance] *)
Definition sensor_distance : M Q :=
  fun w => Done (sensor w (sensor_reads w)) (tick_sensor w).

(** [os.path.exists(path)]: some entry is there. The empty path names
    nothing. *)
Definition os_path_exists (path : string) : M bool :=
  fun w => Done (if String.eqb path "" then false
                 else match fs w !! path with Some _ => true | None => false end) w.

(** [os.path.isfile(path)]: a regular file is there. *)
Definition os_path_isfile (path : string) : M bool :=
  fun w => Done (if String.eqb path "" then false
                 else match fs w !! path with
                      | Some RegularFile => true
                      | _ => false
                      end) w.

(** [os.remove(path)]: unlinks a regular file when that is permitted;
    raises when it is not, on a directory, or on a missing entry. *)
Definition os_remove (path : string) : M unit :=
  fun w => let w1 := emit (EvRemove path) w in
           match fs w !! path with
           | Some RegularFile =>
               if can_remove w path
               then Done tt (set_fs (delete path (fs w)) w1)
               else Raised (OSError "PermissionError") w1
           | Some Directory => Raised (OSError "IsADirectoryError") w1
           | None => Raised (OSError "FileNotFoundError") w1
           end.

(** [shutil.which(tool)], used for its truth value. *)
Definition shutil_which (tool : string) : M bool :=
  fun w => Done (which w tool) w.

(** [subprocess.run(cmd, check=check, timeout=timeout, ..)]: waits for the
    process; with [timeout = None] it waits without bound. *)
Definition subprocess_run (cmd : list string) (check : bool)
    (timeout : option Q) : M unit :=
  fun w =>
    let w1 := emit (EvRun cmd timeout) w in
    match spawn w cmd (fs w) with
    | None => Raised (OSError "FileNotFoundError") w1
    | Some p =>
        let finished :=
          if check && negb (exit_code p =? 0)%Z
          then Raised (CalledProcessError (exit_code p)) (set_fs (fs_after p) w1)
          else Done tt (set_fs (fs_after p) w1) in
        match duration p, timeout with
        | Some _, None => finished
        | Some d, Some t =>
            if Qle_bool d t then finished
            else Raised TimeoutExpired (set_fs (fs_after p) w1)
        | None, Some _ => Raised TimeoutExpired (set_fs (fs_after p) w1)
        | None, None => Blocked w1
        end
    end.

(** [open(path, "rb")] as a context manager: needs a regular file that
    may be opened for reading. *)
Definition open_rb (path : string) : M unit :=
  fun w => match fs w !! path with
           | Some RegularFile =>
               if can_open w path then Done tt w
               else Raised (OSError "PermissionError") w
           | Some Directory => Raised (OSError "IsADirectoryError") w
           | None => Raised (OSError "FileNotFoundError") w
           end.

(** [requests.post(..)]: the request goes out, the endpoint answers or the
    transport raises (connection error, timeout after the given bound).
    [EvPost] stands for one call, whatever exchanges the library makes to
    serve it (a redirect is followed inside the call). *)
Definition requests_post (r : request) : M (Z * string) :=
  fun w => let w1 := tick_posts (emit (EvPost r) w) in
           match endpoint w (posts w) r with
           | Response c t => Done (c, t) w1
           | PostRaises e => Raised e w1
           end.

(* ===================================================================== *)
(** ** Configuration (module globals, read from the environment at import) *)
(* ===================================================================== *)

Record Config := {
  DISTANCE_THRESHOLD_CM : Q;
  SAMPLE_INTERVAL : Q;
  COOLDOWN_SECONDS : Q;
  SEND_PHOTO : bool;
  WEBHOOK_URL : string
}.

(** [MAX_DISTANCE_M = 1.5 if POWERED_AT_3V3 else 3.5], with
    [POWERED_AT_3V3 = True]. *)
Definition POWERED_AT_3V3 : bool := true.
Definition MAX_DISTANCE_M : Q := if POWERED_AT_3V3 then 15 # 10 else 35 # 10.

Definition PHOTO_PATH : string := "/tmp/intruder.jpg".

Definition PLACEHOLDER : string := "PUT_A_NEW_DISCORD_WEBHOOK_HERE".

(** [needle in hay] on strings. *)
Definition str_in (needle hay : string) : bool :=
  match String.index 0 needle hay with Some _ => true | None => false end.

(** Python's [max(a, b)]: [b] when [b > a], else [a]. *)
Definition py_max (a b : Q) : Q := if Qle_bool b a then a else b.

(* ===================================================================== *)
(** ** Camera helpers *)
(* ===================================================================== *)

(** The call passes [check=True] and no [timeout]. *)
Definition _run_quiet (cmd : list string) : M bool :=
  try_except (subprocess_run cmd true None;; mret true)
             (fun _ => mret false).

Definition rpicam_cmd (path : string) : list string :=
  ["rpicam-still"; "-n"; "--zsl"; "-t"; "500"; "--immediate";
   "--width"; "1280"; "--height"; "720"; "-o"; path].

Definition libcamera_cmd (path : string) : list string :=
  ["libcamera-still"; "-n"; "-t"; "500"; "--immediate";
   "--width"; "1280"; "--height"; "720"; "-o"; path].

Definition fswebcam_cmd (path : string) : list string :=
  ["fswebcam"; "-r"; "1280x720"; "--no-banner"; path].

(** The guard of each block, [if shutil.which(tool): if _run_quiet(cmd):],
    as one truth value. *)
Definition which_and_run (tool : string) (cmd : list string) : M bool :=
  present ← shutil_which tool;
  if present : bool then _run_quiet cmd else mret false.

Definition capture_image (path : string) : M bool :=
  mark (EvCapture path);;
  try_except
    (stale ← os_path_exists path;
     if stale : bool then os_remove path else mret tt)
    (fun _ => mret tt);;
  ok1 ← which_and_run "rpicam-still" (rpicam_cmd path);
  if ok1 : bool then os_path_isfile path else
  ok2 ← which_and_run "libcamera-still" (libcamera_cmd path);
  if ok2 : bool then os_path_isfile path else
  ok3 ← which_and_run "fswebcam" (fswebcam_cmd path);
  if ok3 : bool then os_path_isfile path else
  mret false.

(* ===================================================================== *)
(** ** Discord *)
(* ===================================================================== *)

Section WithConfig.

Variable cfg : Config.

(** [not WEBHOOK_URL or "PUT_A_NEW_DISCORD_WEBHOOK_HERE" in WEBHOOK_URL] *)
Definition webhook_unset : bool :=
  String.eqb (WEBHOOK_URL cfg) "" || str_in PLACEHOLDER (WEBHOOK_URL cfg).

(** [image_path and os.path.isfile(image_path)] *)
Definition attachable (image_path : option string) : M bool :=
  match image_path with
  | None => mret false
  | Some p => if String.eqb p "" then mret false else os_path_isfile p
  end.

Definition send_discord (distance_cm : Q) (image_path : option string) : M unit :=
  mark (EvSendDiscord distance_cm image_path);;
  if webhook_unset then log ERROR NoWebhook
  else
    try_except
      (attach ← attachable image_path;
       r ← (if attach : bool then
              open_rb (default "" image_path);;
              requests_post (MultipartPost (WEBHOOK_URL cfg) distance_cm
                                           (default "" image_path) 15)
            else
              requests_post (JsonPost (WEBHOOK_URL cfg) distance_cm 15));
       if ((200 <=? r.1) && (r.1 <? 300))%Z
       then log INFO DiscordSent
       else log WARNING (DiscordFailed r.1 (String.substring 0 200 r.2)))
      (fun e => log ERROR (DiscordError e)).

(* ===================================================================== *)
(** ** Main loop *)
(* ===================================================================== *)

(** The two locals of [main] that live across iterations. *)
Record Locals := {
  last_sent : Q;
  was_in_range : bool
}.

(** [last_sent = 0.0], [was_in_range = False] *)
Definition main_init : Locals := {| last_sent := 0; was_in_range := false |}.

Definition dist_cm_of (reading : Q) : Q := (reading * MAX_DISTANCE_M) * 100.

Definition cooldown_left_at (now last : Q) : Q :=
  py_max 0 (COOLDOWN_SECONDS cfg - (now - last)).

(** One iteration of [while True]. *)
Definition loop_body (st : Locals) : M Locals :=
  reading ← sensor_distance;
  let dist_cm := dist_cm_of reading in
  let in_range := Qle_bool dist_cm (DISTANCE_THRESHOLD_CM cfg) in
  now ← time_time;
  let cooldown_left := cooldown_left_at now (last_sent st) in
  st' ← (if in_range then
           sent ← (if Qle_bool cooldown_left 0 then
                     log INFO (TriggerSend dist_cm (COOLDOWN_SECONDS cfg));;
                     img ← (if SEND_PHOTO cfg then
                              ok ← capture_image PHOTO_PATH;
                              if ok : bool then mret (Some PHOTO_PATH)
                              else log WARNING CameraFailed;; mret None
                            else mret None);
                     send_discord dist_cm img;;
                     time_time
                   else
                     log INFO (TriggerCooldown dist_cm cooldown_left);;
                     mret (last_sent st));
           mret {| last_sent := sent; was_in_range := true |}
         else
           if was_in_range st then
             log INFO Clear;;
             mret {| last_sent := last_sent st; was_in_range := false |}
           else mret st);
  time_sleep (SAMPLE_INTERVAL cfg);;
  mret st'.

(** The first [n] iterations of the loop. *)
Fixpoint main_loop (n : nat) (st : Locals) : M Locals :=
  match n with
  | O => mret st
  | S n' => st' ← loop_body st; main_loop n' st'
  end.

End WithConfig.

(* ===================================================================== *)
(** ** Reading traces *)
(* ===================================================================== *)

(** The events a computation added when it took [w] to [w']. *)
Definition new_events (w w' : World) : list event :=
  drop (length (trace w)) (trace w').

Definition is_send (e : event) : bool :=
  match e with EvSendDiscord _ _ => true | _ => false end.
Definition is_post (e : event) : bool :=
  match e with EvPost _ => true | _ => false end.
Definition is_run (e : event) : bool :=
  match e with EvRun _ _ => true | _ => false end.
Definition is_capture (e : event) : bool :=
  match e with EvCapture _ => true | _ => false end.
Definition is_clear (e : event) : bool :=
  match e with EvLog _ Clear => true | _ => false end.

Definition count (p : event -> bool) (evs : list event) : nat :=
  length (List.filter p evs).

(** Events of the capture chain: its entry mark, the removal of the stale
    file, and process starts, all without a timeout. *)
Definition capture_event (e : event) : Prop :=
  match e with
  | EvCapture _ | EvRemove _ | EvRun _ None => True
  | _ => False
  end.

(** [w'] is [w] after the events [evs]: the oracles and the read counters
    of clock and sensor are those of [w]. *)
Record quiet (w w' : World) (evs : list event) : Prop := {
  q_trace : trace w' = trace w ++ evs;
  q_clock : clock w' = clock w;
  q_clock_reads : clock_reads w' = clock_reads w;
  q_sensor : sensor w' = sensor w;
  q_sensor_reads : sensor_reads w' = sensor_reads w;
  q_which : which w' = which w;
  q_spawn : spawn w' = spawn w;
  q_endpoint : endpoint w' = endpoint w;
  q_can_open : can_open w' = can_open w;
  q_can_remove : can_remove w' = can_remove w;
  q_clock_log : clock_log w' = clock_log w
}.

(** Every started process exits. *)
Definition tools_terminate (w : World) : Prop :=
  forall cmd f p, spawn w cmd f = Some p -> duration p <> None.

(** The request [send_discord] builds, from what is on disk. *)
Definition is_regular (f : gmap string FileKind) (p : string) : bool :=
  if String.eqb p "" then false
  else match f !! p with Some RegularFile => true | _ => false end.

Definition request_for (cfg : Config) (d : Q) (image_path : option string)
    (f : gmap string FileKind) : request :=
  match image_path with
  | Some p => if is_regular f p then MultipartPost (WEBHOOK_URL cfg) d p 15
              else JsonPost (WEBHOOK_URL cfg) d 15
  | None => JsonPost (WEBHOOK_URL cfg) d 15
  end.

(** The log line that follows the endpoint's answer. *)
Definition outcome_log (o : PostOutcome) : event :=
  match o with
  | Response c t =>
      if ((200 <=? c) && (c <? 300))%Z then EvLog INFO DiscordSent
      else EvLog WARNING (DiscordFailed c (String.substring 0 200 t))
  | PostRaises e => EvLog ERROR (DiscordError e)
  end.

(** Falling edges of the in-range flag: samples out of range that follow a
    sample in range ([prev] is the flag before the first sample). *)
Fixpoint falling_edges (prev : bool) (flags : list bool) : nat :=
  match flags with
  | [] => O
  | b :: rest => (if prev && negb b then 1 else 0)%nat + falling_edges b rest
  end.

(** The in-range flags the loop computes for the next [k] sensor readings. *)
Definition flags_from (cfg : Config) (w : World) (k : nat) : list bool :=
  List.map (fun i => Qle_bool (dist_cm_of (sensor w (sensor_reads w + i)%nat))
                              (DISTANCE_THRESHOLD_CM cfg))
           (seq 0 k).

(** The chain skips the backends [bs] from [w] and reaches [w']: each is
    absent or its command fails. *)
Fixpoint skips (bs : list (string * list string)) (w w' : World) : Prop :=
  match bs with
  | [] => w' = w
  | (tool, cmd) :: rest =>
      exists w1, which_and_run tool cmd w = Done false w1 /\ skips rest w1 w'
  end.

(** The world in which the chain starts: after the entry mark and the
    removal of a stale file. *)
Definition after_cleanup (path : string) (w : World) : World :=
  world_of ((mark (EvCapture path);;
             try_except
               (stale ← os_path_exists path;
                if stale : bool then os_remove path else mret tt)
               (fun _ => mret tt)) w).

Definition backends (path : string) : list (string * list string) :=
  [("rpicam-still", rpicam_cmd path);
   ("libcamera-still", libcamera_cmd path);
   ("fswebcam", fswebcam_cmd path)].

(** [w'] is [w] after some events of the capture chain. *)
Definition chain_step (w w' : World) : Prop :=
  exists evs, quiet w w' evs /\ Forall capture_event evs.

(** The chain over a list of backends: stop at the first guard that is
    true and return whether the output is a regular file. *)
Fixpoint chain (bs : list (string * list string)) (path : string) : M bool :=
  match bs with
  | [] => mret false
  | (tool, cmd) :: rest =>
      ok ← which_and_run tool cmd;
      if ok : bool then os_path_isfile path else chain rest path
  end.

(** The attachment is a regular file that may not be opened. *)
Definition open_denied (image_path : option string) (w : World) : bool :=
  match image_path with
  | Some p => is_regular (fs w) p && negb (can_open w p)
  | None => false
  end.

(** What [send_discord] adds to the trace after its entry mark. *)
Definition discord_events (cfg : Config) (d : Q) (image_path : option string)
    (w : World) : list event :=
  if webhook_unset cfg then [EvLog ERROR NoWebhook]
  else if open_denied image_path w
  then [EvLog ERROR (DiscordError (OSError "PermissionError"))]
  else let r := request_for cfg d image_path (fs w) in
       [EvPost r; outcome_log (endpoint w (posts w) r)].

(** The request and the handling of its answer, inside the [try]. *)
Definition post_and_log (r : request) : M unit :=
  try_except
    (a ← requests_post r;
     if ((200 <=? a.1) && (a.1 <? 300))%Z
     then log INFO DiscordSent
     else log WARNING (DiscordFailed a.1 (String.substring 0 200 a.2)))
    (fun e => log ERROR (DiscordError e)).

Definition is_config_error (e : event) : bool :=
  match e with EvLog ERROR NoWebhook => true | _ => false end.

(** Requests against calls of [send_discord]: never more requests than
    calls, none without a webhook, and one per call when no photo is
    involved and a webhook is configured. *)
Definition posts_follow_sends (cfg : Config) (sends posts : nat) : Prop :=
  (posts <= sends)%nat /\
  (webhook_unset cfg = true -> posts = O) /\
  (SEND_PHOTO cfg = false -> webhook_unset cfg = false -> posts = sends).

(** The capture step of a sending iteration returns. *)
Definition capture_returns (cfg : Config) (w : World) : Prop :=
  SEND_PHOTO cfg = false \/
  exists b w0, capture_image PHOTO_PATH w = Done b w0.

(** The file system once the stale file is dealt with: a regular file at
    the output path is removed when that is permitted. *)
Definition cleaned (path : string) (w : World) : gmap string FileKind :=
  if is_regular (fs w) path && can_remove w path
  then delete path (fs w) else fs w.

(** How the chain ends, read off the tools alone. *)
Inductive chain_end :=
| StoppedAt (f : gmap string FileKind)   (* a command exited with code 0 *)
| AllSkipped (f : gmap string FileKind)  (* no command did *)
| HungAt.                                (* a command never exits *)

(** The chain in the words of the amended claim: go through the backends
    in order; skip one that is not installed, that cannot be started, or
    whose process exits with a code other than 0; stop at the first whose
    process exits with code 0. The result lists the commands started and
    tells how the chain ends, with the file system the last process left. *)
Fixpoint first_clean_exit (w : World) (f : gmap string FileKind)
    (bs : list (string * list string)) : list (list string) * chain_end :=
  match bs with
  | [] => ([], AllSkipped f)
  | (tool, cmd) :: rest =>
      if which w tool then
        match spawn w cmd f with
        | None =>
            let r := first_clean_exit w f rest in (cmd :: r.1, r.2)
        | Some p =>
            match duration p with
            | None => ([cmd], HungAt)
            | Some _ =>
                if (exit_code p =? 0)%Z then ([cmd], StoppedAt (fs_after p))
                else let r := first_clean_exit w (fs_after p) rest in
                     (cmd :: r.1, r.2)
            end
        end
      else first_clean_exit w f rest
  end.

(** Events between the TRIGGER line and the call of [send_discord]. *)
Definition pre_send_event (e : event) : Prop :=
  capture_event e \/ e = EvLog WARNING CameraFailed.

(** The world right after the "TRIGGER .. sending" line of an iteration. *)
Definition trigger_world (cfg : Config) (w : World) : World :=
  emit (EvLog INFO (TriggerSend (dist_cm_of (sensor w (sensor_reads w)))
                                (COOLDOWN_SECONDS cfg)))
       (tick_clock (tick_sensor w)).

(* ===================================================================== *)
(** ** Sample configurations and worlds *)
(* ===================================================================== *)

Definition demo_url : string := "https://discord.example/api/webhooks/1/token".

(** The defaults of the module: 35 cm, 0.25 s, 30 s. *)
Definition cfg_text : Config :=
  {| DISTANCE_THRESHOLD_CM := 35; SAMPLE_INTERVAL := 1 # 4;
     COOLDOWN_SECONDS := 30; SEND_PHOTO := false; WEBHOOK_URL := demo_url |}.

Definition cfg_photo : Config :=
  {| DISTANCE_THRESHOLD_CM := 35; SAMPLE_INTERVAL := 1 # 4;
     COOLDOWN_SECONDS := 30; SEND_PHOTO := true; WEBHOOK_URL := demo_url |}.

(** [WEBHOOK_URL] left at its default, the placeholder. *)
Definition cfg_no_hook : Config :=
  {| DISTANCE_THRESHOLD_CM := 35; SAMPLE_INTERVAL := 1 # 4;
     COOLDOWN_SECONDS := 30; SEND_PHOTO := false; WEBHOOK_URL := PLACEHOLDER |}.

(** A clock that reads 1700000000 first and 1700000003 afterwards. *)
Definition epoch_clock (n : nat) : Q :=
  match n with O => 1700000000 | S _ => 1700000003 end.

(** A clock that reads 10. *)
Definition early_clock (n : nat) : Q := 10.

Definition make_world (clk : nat -> Q) (reading : nat -> Q)
    (installed : string -> bool)
    (run : list string -> gmap string FileKind -> option ProcRun)
    (answer : nat -> request -> PostOutcome) : World :=
  {| fs := ∅; clock := clk; clock_reads := 0; sensor := reading;
     sensor_reads := 0; which := installed; spawn := run;
     endpoint := answer; posts := 0; trace := [];
     can_open := fun _ => true; can_remove := fun _ => true;
     clock_log := [] |}.

Definition no_tool (tool : string) : bool := false.
Definition every_tool (tool : string) : bool := true.
Definition no_process (cmd : list string) (f : gmap string FileKind)
  : option ProcRun := None.
Definition answers (status : Z) (n : nat) (r : request) : PostOutcome :=
  Response status "".

(** An object at 30 cm (reading 0.2 of 1.5 m). *)
Definition near (n : nat) : Q := 1 # 5.
(** Nothing within 75 cm. *)
Definition far (n : nat) : Q := 1 # 2.
(** Near for two samples, then far. *)
Definition near_then_far (n : nat) : Q :=
  match n with O | 1%nat => 1 # 5 | _ => 1 # 2 end.

Definition w_near : World := make_world epoch_clock near no_tool no_process (answers 204).
Definition w_near_503 : World := make_world epoch_clock near no_tool no_process (answers 503).
Definition w_far : World := make_world epoch_clock far no_tool no_process (answers 204).
Definition w_early : World := make_world early_clock near no_tool no_process (answers 204).
Definition w_leaving : World :=
  make_world epoch_clock near_then_far no_tool no_process (answers 204).

(** rpicam-still exits with code 0 and writes nothing; the other tools exit
    with code 0 and write the photo. *)
Definition silent_rpicam (cmd : list string) (f : gmap string FileKind)
  : option ProcRun :=
  match cmd with
  | "rpicam-still" :: _ =>
      Some {| duration := Some 1; exit_code := 0; fs_after := f |}
  | _ => Some {| duration := Some 1; exit_code := 0;
                 fs_after := {[ PHOTO_PATH := RegularFile ]} |}
  end.

(** rpicam-still never exits. *)
Definition hung_rpicam (cmd : list string) (f : gmap string FileKind)
  : option ProcRun :=
  Some {| duration := None; exit_code := 0; fs_after := f |}.

Definition w_silent_cam : World :=
  make_world epoch_clock near every_tool silent_rpicam (answers 204).
Definition w_hung_cam : World :=
  make_world epoch_clock near every_tool hung_rpicam (answers 204).

(** The endpoint does not answer within the timeout. *)
Definition timing_out (n : nat) (r : request) : PostOutcome :=
  PostRaises (RequestException "ReadTimeout").
Definition w_near_timeout : World :=
  make_world epoch_clock near no_tool no_process timing_out.

(** [w] with every [open] refused. *)
Definition deny_open (w : World) : World :=
  {| fs := fs w; clock := clock w; clock_reads := clock_reads w;
     sensor := sensor w; sensor_reads := sensor_reads w; which := which w;
     spawn := spawn w; endpoint := endpoint w; posts := posts w;
     trace := trace w;
     can_open := fun _ => false; can_remove := can_remove w;
     clock_log := clock_log w |}.

(** [w] with every [os.remove] refused. *)
Definition deny_remove (w : World) : World :=
  {| fs := fs w; clock := clock w; clock_reads := clock_reads w;
     sensor := sensor w; sensor_reads := sensor_reads w; which := which w;
     spawn := spawn w; endpoint := endpoint w; posts := posts w;
     trace := trace w;
     can_open := can_open w; can_remove := fun _ => false;
     clock_log := clock_log w |}.

(** The photo is on disk. *)
Definition w_photo : World := set_fs {[ PHOTO_PATH := RegularFile ]} w_near.
(** The photo is on disk and cannot be opened. *)
Definition w_locked_photo : World := deny_open w_photo.

(** Ten seconds after a send at 1699999990. *)
Definition recently_sent : Locals :=
  {| last_sent := 1699999990; was_in_range := true |}.

(* ===================================================================== *)
(** ** Further vocabulary for traces and requests *)
(* ===================================================================== *)

Definition is_remove (e : event) : bool :=
  match e with EvRemove _ => true | _ => false end.
Definition is_camera_warning (e : event) : bool :=
  match e with EvLog WARNING CameraFailed => true | _ => false end.

Definition request_url (r : request) : string :=
  match r with JsonPost u _ _ | MultipartPost u _ _ _ => u end.
Definition request_timeout (r : request) : Q :=
  match r with JsonPost _ _ t | MultipartPost _ _ _ t => t end.

(** The process start of a backend, as the chain performs it. *)
Definition start_of (b : string * list string) : event := EvRun b.2 None.

(** Every tool exits with code 0 and writes the photo. *)
Definition writing_tool (cmd : list string) (f : gmap string FileKind)
  : option ProcRun :=
  Some {| duration := Some 1; exit_code := 0;
          fs_after := {[ PHOTO_PATH := RegularFile ]} |}.

(** Every tool exits with code 0 and leaves the file system as it was. *)
Definition idle_tool (cmd : list string) (f : gmap string FileKind)
  : option ProcRun :=
  Some {| duration := Some 1; exit_code := 0; fs_after := f |}.

Definition w_good_cam : World :=
  make_world epoch_clock near every_tool writing_tool (answers 204).

(** A photo of an earlier capture is still on disk; the tools write nothing. *)
Definition w_stale : World :=
  set_fs {[ PHOTO_PATH := RegularFile ]}
         (make_world epoch_clock near every_tool idle_tool (answers 204)).

(* ===================================================================== *)
(** ** [main]: set-up, loop, interrupt, clean-up *)
(* ===================================================================== *)

Definition TRIG_GPIO : Z := 23.
Definition ECHO_GPIO : Z := 24.

(** What the sensor object does when [main] creates it, sets its threshold
    and closes it: [Some e] when the call raises [e]. *)
Record Hardware := {
  sensor_init : option exn;     (* DistanceSensor(..) *)
  threshold_init : option exn;  (* sensor.threshold_distance = .. *)
  sensor_close : option exn     (* sensor.close() *)
}.

(** The log lines of [main] outside the loop. *)
Inductive main_log :=
| Banner (max_distance threshold cooldown : Q) (photo : bool)
| Note3V3               (* "HC-SR04 VCC at 3.3V .." *)
| StoppedByUser         (* "Stopped by user." *)
| ErrorClosingSensor (e : exn)
| GpioReleased.         (* "GPIO released." *)

Inductive main_event :=
| MSensorOpen (echo trigger : Z) (max_distance : Q) (queue_len : Z)
| MSetThreshold (meters : Q)
| MLog (l : level) (m : main_log)
| MLoop (e : event)     (* an action of the loop *)
| MSensorClose.

(** How the [try] block of [main] is left. The loop has no exit of its
    own: it ends with [KeyboardInterrupt], taken here at the end of an
    iteration (during the sleep), after [n] iterations. An interrupt that
    arrives during the set-up or inside a capture that hangs is not
    modelled, so the statements about [main] say what follows from a
    failing set-up and from an interrupt between iterations, not every
    way in which [main] can end. *)
Inductive Leave := KeyboardInterrupt | Failure (e : exn).

(** How [main] ends. *)
Inductive Exit := Returned | Propagated (e : exn) | NeverReturns.

(** The [try] block: its events, whether [sensor] was assigned, and how
    the block is left ([None]: it is not, the loop is blocked). *)
Definition main_try (cfg : Config) (hw : Hardware) (n : nat) (w : World)
  : list main_event * bool * option Leave :=
  let opened := MSensorOpen ECHO_GPIO TRIG_GPIO MAX_DISTANCE_M 3 in
  match sensor_init hw with
  | Some e => ([opened], false, Some (Failure e))
  | None =>
      let set := MSetThreshold (DISTANCE_THRESHOLD_CM cfg / 100) in
      match threshold_init hw with
      | Some e => ([opened; set], true, Some (Failure e))
      | None =>
          let banner :=
            MLog INFO (Banner MAX_DISTANCE_M (DISTANCE_THRESHOLD_CM cfg)
                              (COOLDOWN_SECONDS cfg) (SEND_PHOTO cfg))
            :: (if POWERED_AT_3V3 then [MLog INFO Note3V3] else []) in
          let run := main_loop cfg n main_init w in
          let evs := [opened; set] ++ banner
                       ++ List.map MLoop (new_events w (world_of run)) in
          match run with
          | Done _ _ => (evs, true, Some KeyboardInterrupt)
          | Raised e _ => (evs, true, Some (Failure e))
          | Blocked _ => (evs, true, None)
          end
      end
  end.

(** The [finally] block. *)
Definition main_finally (hw : Hardware) (assigned : bool) : list main_event :=
  (if assigned
   then MSensorClose ::
        match sensor_close hw with
        | Some e => [MLog ERROR (ErrorClosingSensor e)]
        | None => []
        end
   else [])
  ++ [MLog INFO GpioReleased].

(** [main], interrupted after [n] iterations of its loop. *)
Definition main (cfg : Config) (hw : Hardware) (n : nat) (w : World)
  : Exit * list main_event :=
  match main_try cfg hw n w with
  | (evs, assigned, Some KeyboardInterrupt) =>
      (Returned, evs ++ [MLog INFO StoppedByUser] ++ main_finally hw assigned)
  | (evs, assigned, Some (Failure e)) =>
      (Propagated e, evs ++ main_finally hw assigned)
  | (evs, _, None) => (NeverReturns, evs)
  end.

Definition is_close (e : main_event) : bool :=
  match e with MSensorClose => true | _ => false end.
Definition is_open (e : main_event) : bool :=
  match e with MSensorOpen _ _ _ _ => true | _ => false end.
Definition is_loop (e : main_event) : bool :=
  match e with MLoop _ => true | _ => false end.

Definition working : Hardware :=
  {| sensor_init := None; threshold_init := None; sensor_close := None |}.
Definition no_sensor : Hardware :=
  {| sensor_init := Some (OSError "GPIO busy"); threshold_init := None;
     sensor_close := None |}.

(* ===================================================================== *)
(** ** The environment switch for photos *)
(* ===================================================================== *)

(** [str.lower()] and [str.upper()] as they act on ASCII text. The
    strings of the model are byte strings. No character outside ASCII
    lowers to a letter of "0", "false" or "no", so [load_send_photo] below
    reads any value as the module does. Python's [upper] sends some
    characters outside ASCII to ASCII letters (U+017F to "S"), which
    [str_upper] does not follow: statements about [str_upper] are made for
    ASCII strings only. *)
Definition ascii_lower (c : Ascii.ascii) : Ascii.ascii :=
  let n := Ascii.nat_of_ascii c in
  if (65 <=? n)%nat && (n <=? 90)%nat then Ascii.ascii_of_nat (n + 32) else c.

Definition ascii_upper (c : Ascii.ascii) : Ascii.ascii :=
  let n := Ascii.nat_of_ascii c in
  if (97 <=? n)%nat && (n <=? 122)%nat then Ascii.ascii_of_nat (n - 32) else c.

Fixpoint str_lower (s : string) : string :=
  match s with
  | EmptyString => EmptyString
  | String c s' => String (ascii_lower c) (str_lower s')
  end.

Fixpoint str_upper (s : string) : string :=
  match s with
  | EmptyString => EmptyString
  | String c s' => String (ascii_upper c) (str_upper s')
  end.

Fixpoint is_ascii (s : string) : bool :=
  match s with
  | EmptyString => true
  | String c s' => (Ascii.nat_of_ascii c <? 128)%nat && is_ascii s'
  end.

(** [SEND_PHOTO = os.getenv("SEND_PHOTO", "1").lower() not in
    ("0", "false", "no")] *)
Definition load_send_photo (env : option string) : bool :=
  negb (existsb (String.eqb (str_lower (default "1" env)))
                ["0"; "false"; "no"]).

(* ===================================================================== *)
(** ** Basic facts *)
(* ===================================================================== *)

Ltac unfold_m :=
  unfold mbind, M_bind, bind, mret, M_ret, ret, try_except, raise,
    log, mark, time_time, time_sleep, sensor_distance, os_path_exists,
    os_path_isfile, os_remove, shutil_which, open_rb, requests_post in *.

Lemma new_events_app w w' evs :
  trace w' = trace w ++ evs -> new_events w w' = evs.
Proof.
  intros H. unfold new_events. rewrite H. apply drop_app_length.
Qed.

Lemma count_app p xs ys : count p (xs ++ ys) = (count p xs + count p ys)%nat.
Proof. unfold count. rewrite List.filter_app, length_app. reflexivity. Qed.

Lemma count_none p xs :
  (forall e, In e xs -> p e = false) -> count p xs = O.
Proof.
  unfold count. induction xs as [|x xs IH]; intros H; simpl; [reflexivity|].
  rewrite (H x (or_introl eq_refl)). apply IH. intros e He. apply H. now right.
Qed.

Lemma capture_event_counts evs :
  Forall capture_event evs ->
  count is_send evs = O /\ count is_post evs = O /\ count is_clear evs = O.
Proof.
  intros H. repeat split; apply count_none; intros e He;
    rewrite Forall_forall in H; specialize (H e);
    assert (He' : e ∈ evs) by (apply list_elem_of_In; exact He);
    specialize (H He'); destruct e as [| | |? | | |]; simpl in *;
    try reflexivity; try contradiction.
Qed.

Lemma quiet_refl w : quiet w w [].
Proof. constructor; try reflexivity. now rewrite app_nil_r. Qed.

Lemma quiet_trans w1 w2 w3 e1 e2 :
  quiet w1 w2 e1 -> quiet w2 w3 e2 -> quiet w1 w3 (e1 ++ e2).
Proof.
  intros [] []. constructor; try congruence.
  rewrite app_assoc. congruence.
Qed.

Lemma quiet_emit w e : quiet w (emit e w) [e].
Proof. constructor; reflexivity. Qed.

Lemma quiet_set_fs w f : quiet w (set_fs f w) [].
Proof. constructor; try reflexivity. simpl. now rewrite app_nil_r. Qed.

Lemma Qle_bool_false_iff x y : Qle_bool x y = false <-> y < x.
Proof.
  split; intros H.
  - destruct (Qlt_le_dec y x) as [L|L]; [exact L|].
    apply Qle_bool_iff in L. congruence.
  - destruct (Qle_bool x y) eqn:E; [|reflexivity].
    apply Qle_bool_iff in E. lra.
Qed.

Lemma py_max_pos x : 0 < x -> Qle_bool (py_max 0 x) 0 = false.
Proof.
  intros H. unfold py_max.
  assert (E : Qle_bool x 0 = false) by (apply Qle_bool_false_iff; exact H).
  rewrite E. exact E.
Qed.

Lemma py_max_nonneg x : 0 <= py_max 0 x.
Proof.
  unfold py_max. destruct (Qle_bool x 0) eqn:E; [lra|].
  destruct (Qlt_le_dec 0 x) as [H|H]; [lra|].
  apply Qle_bool_iff in H. congruence.
Qed.

Lemma py_max_zero_iff x : py_max 0 x == 0 <-> x <= 0.
Proof.
  unfold py_max. destruct (Qle_bool x 0) eqn:E.
  - apply Qle_bool_iff in E. split; [auto | reflexivity].
  - split; intros H.
    + lra.
    + apply Qle_bool_iff in H. congruence.
Qed.

Lemma py_max_le_zero_iff x : Qle_bool (py_max 0 x) 0 = true <-> py_max 0 x == 0.
Proof.
  rewrite Qle_bool_iff. pose proof (py_max_nonneg x). split; intros; lra.
Qed.

(* ===================================================================== *)
(** ** The capture chain *)
(* ===================================================================== *)

Lemma chain_step_refl w : chain_step w w.
Proof. exists []. split; [apply quiet_refl | constructor]. Qed.

Lemma chain_step_trans w1 w2 w3 :
  chain_step w1 w2 -> chain_step w2 w3 -> chain_step w1 w3.
Proof.
  intros (e1 & Q1 & F1) (e2 & Q2 & F2). exists (e1 ++ e2). split.
  - eapply quiet_trans; eassumption.
  - apply Forall_app. split; assumption.
Qed.

Lemma chain_step_run w cmd f :
  chain_step w (set_fs f (emit (EvRun cmd None) w)).
Proof.
  exists ([EvRun cmd None] ++ []). split.
  - eapply quiet_trans; [apply quiet_emit | apply quiet_set_fs].
  - repeat constructor.
Qed.

Lemma chain_step_run' w cmd : chain_step w (emit (EvRun cmd None) w).
Proof. exists [EvRun cmd None]. split; [apply quiet_emit | repeat constructor]. Qed.

Lemma os_path_isfile_eq path w :
  os_path_isfile path w = Done (is_regular (fs w) path) w.
Proof. reflexivity. Qed.

(** The guard of a backend is true exactly when the tool is installed, its
    process starts, exits, and exits with code 0. *)
Lemma which_and_run_true tool cmd w w' :
  which_and_run tool cmd w = Done true w' <->
  which w tool = true /\
  exists p d, spawn w cmd (fs w) = Some p /\ duration p = Some d /\
              exit_code p = 0%Z /\
              w' = set_fs (fs_after p) (emit (EvRun cmd None) w).
Proof.
  unfold which_and_run, _run_quiet, subprocess_run. unfold_m.
  destruct (which w tool); [|split; [discriminate | intros [? _]; discriminate]].
  destruct (spawn w cmd (fs w)) as [p|] eqn:Sp; simpl.
  2:{ split; [discriminate | intros (_ & p & d & ? & _); discriminate]. }
  destruct (duration p) as [d|] eqn:Du.
  2:{ split; [discriminate | intros (_ & p' & d & E & ? & _)].
      inversion E; subst. congruence. }
  destruct (Z.eqb_spec (exit_code p) 0) as [Ex|Ex]; simpl.
  - split.
    + intros H. inversion H. split; [reflexivity|]. exists p, d. auto.
    + intros (_ & p' & d' & E & _ & _ & ->). inversion E; subst. reflexivity.
  - split; [discriminate|].
    intros (_ & p' & d' & E & _ & Ex' & _). inversion E; subst. contradiction.
Qed.

(** The guard never returns exactly when the tool is installed and its
    process never exits. *)
Lemma which_and_run_blocked tool cmd w w' :
  which_and_run tool cmd w = Blocked w' <->
  which w tool = true /\
  exists p, spawn w cmd (fs w) = Some p /\ duration p = None /\
            w' = emit (EvRun cmd None) w.
Proof.
  unfold which_and_run, _run_quiet, subprocess_run. unfold_m.
  destruct (which w tool); [|split; [discriminate | intros [? _]; discriminate]].
  destruct (spawn w cmd (fs w)) as [p|] eqn:Sp; simpl.
  2:{ split; [discriminate | intros (_ & p & ? & _); discriminate]. }
  destruct (duration p) as [d|] eqn:Du.
  - split.
    + destruct (negb (exit_code p =? 0)%Z); discriminate.
    + intros (_ & p' & E & ? & _). inversion E; subst. congruence.
  - split.
    + intros H. inversion H. split; [reflexivity|]. exists p. auto.
    + intros (_ & p' & E & _ & ->). reflexivity.
Qed.

(** The guard is false exactly when the tool is not installed, or its
    process does not start, or it exits with a code other than 0. *)
Lemma which_and_run_false tool cmd w w' :
  which_and_run tool cmd w = Done false w' <->
  (which w tool = false /\ w' = w) \/
  (which w tool = true /\ spawn w cmd (fs w) = None /\
   w' = emit (EvRun cmd None) w) \/
  (which w tool = true /\
   exists p d, spawn w cmd (fs w) = Some p /\ duration p = Some d /\
               exit_code p <> 0%Z /\
               w' = set_fs (fs_after p) (emit (EvRun cmd None) w)).
Proof.
  unfold which_and_run, _run_quiet, subprocess_run. unfold_m.
  destruct (which w tool).
  2:{ split.
      - intros H. inversion H. left. auto.
      - intros [[_ ->]|[[? _]|[? _]]]; [reflexivity | discriminate..]. }
  destruct (spawn w cmd (fs w)) as [p|] eqn:Sp; simpl.
  2:{ split.
      - intros H. inversion H. right. left. auto.
      - intros [[? _]|[(_ & _ & ->)|(_ & p & d & ? & _)]];
          [discriminate | reflexivity | discriminate]. }
  destruct (duration p) as [d|] eqn:Du.
  2:{ split; [discriminate|].
      intros [[? _]|[(_ & ? & _)|(_ & p' & d & E & ? & _)]]; try discriminate.
      inversion E; subst. congruence. }
  destruct (Z.eqb_spec (exit_code p) 0) as [Ex|Ex]; simpl.
  - split; [discriminate|].
    intros [[? _]|[(_ & ? & _)|(_ & p' & d' & E & _ & Ex' & _)]]; try discriminate.
    inversion E; subst. contradiction.
  - split.
    + intros H. inversion H. right. right. split; [reflexivity|].
      exists p, d. auto.
    + intros [[? _]|[(_ & ? & _)|(_ & p' & d' & E & _ & _ & ->)]]; try discriminate.
      inversion E; subst. reflexivity.
Qed.

(** The guard never raises: the [try] of [_run_quiet] catches everything. *)
Lemma which_and_run_total tool cmd w :
  (exists b w', which_and_run tool cmd w = Done b w') \/
  (exists w', which_and_run tool cmd w = Blocked w').
Proof.
  unfold which_and_run, _run_quiet, subprocess_run. unfold_m.
  destruct (which w tool); [|eauto].
  destruct (spawn w cmd (fs w)) as [p|]; simpl; [|eauto].
  destruct (duration p); [|eauto].
  destruct (negb (exit_code p =? 0)%Z); simpl; eauto.
Qed.

Lemma which_and_run_step tool cmd w :
  chain_step w (world_of (which_and_run tool cmd w)).
Proof.
  destruct (which_and_run tool cmd w) as [[|] w'|e w'|w'] eqn:E; simpl.
  - apply which_and_run_true in E as (_ & p & d & _ & _ & _ & ->).
    apply chain_step_run.
  - apply which_and_run_false in E
      as [[_ ->]|[(_ & _ & ->)|(_ & p & d & _ & _ & _ & ->)]].
    + apply chain_step_refl.
    + apply chain_step_run'.
    + apply chain_step_run.
  - destruct (which_and_run_total tool cmd w) as [(b & w2 & H)|(w2 & H)];
      congruence.
  - apply which_and_run_blocked in E as (_ & p & _ & _ & ->).
    apply chain_step_run'.
Qed.

Lemma which_and_run_terminates tool cmd w :
  tools_terminate w -> exists b w', which_and_run tool cmd w = Done b w'.
Proof.
  intros T. destruct (which_and_run_total tool cmd w) as [H|[w' H]]; [exact H|].
  apply which_and_run_blocked in H as (_ & p & Sp & Du & _).
  exfalso. exact (T _ _ _ Sp Du).
Qed.

Lemma tools_terminate_step w w' :
  chain_step w w' -> tools_terminate w -> tools_terminate w'.
Proof.
  intros (evs & Q & _) T cmd f p. rewrite (q_spawn _ _ _ Q). apply T.
Qed.

Lemma fs_emit e w : fs (emit e w) = fs w.
Proof. reflexivity. Qed.

(** The cleanup, spelled out. *)
Lemma after_cleanup_eq path w :
  after_cleanup path w =
  if String.eqb path "" then emit (EvCapture path) w
  else match fs w !! path with
       | Some RegularFile =>
           if can_remove w path
           then set_fs (delete path (fs w))
                       (emit (EvRemove path) (emit (EvCapture path) w))
           else emit (EvRemove path) (emit (EvCapture path) w)
       | Some Directory => emit (EvRemove path) (emit (EvCapture path) w)
       | None => emit (EvCapture path) w
       end.
Proof.
  unfold after_cleanup. unfold_m. cbv beta. rewrite ?fs_emit.
  destruct (String.eqb path ""); [reflexivity|].
  destruct (fs w !! path) as [[|]|] eqn:E; cbv beta iota;
    rewrite ?fs_emit, ?E; try reflexivity.
  change (can_remove (emit (EvCapture path) w) path) with (can_remove w path).
  destruct (can_remove w path); reflexivity.
Qed.

Lemma cleanup_done path w :
  (mark (EvCapture path);;
   try_except
     (stale ← os_path_exists path;
      if stale : bool then os_remove path else mret tt)
     (fun _ => mret tt)) w = Done tt (after_cleanup path w).
Proof.
  unfold after_cleanup. unfold_m. cbv beta. rewrite ?fs_emit.
  destruct (String.eqb path ""); [reflexivity|].
  destruct (fs w !! path) as [[|]|] eqn:E; cbv beta iota;
    rewrite ?fs_emit, ?E; try reflexivity.
  change (can_remove (emit (EvCapture path) w) path) with (can_remove w path).
  destruct (can_remove w path); reflexivity.
Qed.

Lemma cleanup_step path w : chain_step w (after_cleanup path w).
Proof.
  rewrite after_cleanup_eq.
  destruct (String.eqb path "").
  { exists [EvCapture path]. split; [apply quiet_emit | repeat constructor]. }
  destruct (fs w !! path) as [[|]|]; [destruct (can_remove w path)| |].
  - exists ([EvCapture path] ++ [EvRemove path] ++ []). split.
    + eapply quiet_trans; [apply quiet_emit|].
      eapply quiet_trans; [apply quiet_emit | apply quiet_set_fs].
    + repeat constructor.
  - exists ([EvCapture path] ++ [EvRemove path]). split.
    + eapply quiet_trans; apply quiet_emit.
    + repeat constructor.
  - exists ([EvCapture path] ++ [EvRemove path]). split.
    + eapply quiet_trans; apply quiet_emit.
    + repeat constructor.
  - exists [EvCapture path]. split; [apply quiet_emit | repeat constructor].
Qed.

Lemma cleanup_starts path w :
  exists evs,
    trace (after_cleanup path w) = trace w ++ evs /\
    List.filter is_run evs = [] /\ (count is_remove evs <= 1)%nat.
Proof.
  rewrite after_cleanup_eq.
  destruct (String.eqb path "").
  { exists [EvCapture path]. repeat split; try reflexivity.
    unfold count; simpl; lia. }
  destruct (fs w !! path) as [[|]|]; [destruct (can_remove w path)| |].
  1-3: exists [EvCapture path; EvRemove path]; split; [|split];
    [simpl; rewrite <- app_assoc; reflexivity | reflexivity
    | unfold count; simpl; lia].
  exists [EvCapture path]. repeat split; try reflexivity.
  unfold count; simpl; lia.
Qed.

(** [capture_image] is the cleanup followed by the chain over the three
    backends in the order rpicam-still, libcamera-still, fswebcam. *)
Lemma capture_image_chain path w :
  capture_image path w = chain (backends path) path (after_cleanup path w).
Proof.
  pose proof (cleanup_done path w) as H.
  unfold capture_image.
  unfold mbind, M_bind, bind in H |- *. unfold mark at 1 in H. unfold mark at 1.
  cbv beta iota in H |- *. rewrite H. reflexivity.
Qed.

Lemma chain_cons tool cmd rest path w :
  chain ((tool, cmd) :: rest) path w =
  match which_and_run tool cmd w with
  | Done true w' => Done (is_regular (fs w') path) w'
  | Done false w' => chain rest path w'
  | Raised e w' => Raised e w'
  | Blocked w' => Blocked w'
  end.
Proof.
  simpl. unfold mbind, M_bind, bind.
  destruct (which_and_run tool cmd w) as [[|] w'|e w'|w']; reflexivity.
Qed.

Lemma skips_step bs : forall w w', skips bs w w' -> chain_step w w'.
Proof.
  induction bs as [|[tool cmd] rest IH]; intros w w' H; simpl in H.
  - subst. apply chain_step_refl.
  - destruct H as (w1 & H1 & H2).
    eapply chain_step_trans; [|apply IH; exact H2].
    pose proof (which_and_run_step tool cmd w) as S. rewrite H1 in S. exact S.
Qed.

(** Backends that are skipped leave the rest of the chain to run. *)
Lemma chain_skips pre rest path : forall w w1,
  skips pre w w1 -> chain (pre ++ rest) path w = chain rest path w1.
Proof.
  induction pre as [|[tool cmd] pre IH]; intros w w1 H; simpl in H.
  - subst. reflexivity.
  - destruct H as (w2 & H1 & H2).
    change (((tool, cmd) :: pre) ++ rest) with ((tool, cmd) :: (pre ++ rest)).
    rewrite chain_cons, H1. apply IH. exact H2.
Qed.

(** The chain never raises; it adds only capture events; it ends in [Done]
    unless a started process never exits. *)
Lemma chain_outcome bs path : forall w,
  chain_step w (world_of (chain bs path w)) /\
  ((exists b w', chain bs path w = Done b w') \/
   ((exists w', chain bs path w = Blocked w') /\ ~ tools_terminate w)).
Proof.
  induction bs as [|[tool cmd] rest IH]; intros w.
  - split; [apply chain_step_refl | left; eexists _, _; reflexivity].
  - rewrite chain_cons.
    pose proof (which_and_run_step tool cmd w) as S.
    destruct (which_and_run tool cmd w) as [[|] w'|e w'|w'] eqn:E; simpl in S.
    + split; [exact S | left; eauto].
    + destruct (IH w') as [S' O]. split.
      * eapply chain_step_trans; eassumption.
      * destruct O as [O|[O T]]; [left; exact O | right].
        split; [exact O|]. intros T'. apply T.
        eapply tools_terminate_step; eassumption.
    + destruct (which_and_run_total tool cmd w) as [(b & w2 & H)|(w2 & H)];
        congruence.
    + split; [exact S | right]. split; [eauto|].
      intros T. destruct (which_and_run_terminates tool cmd w T) as (b & w2 & H).
      congruence.
Qed.

Lemma capture_image_outcome path w :
  chain_step w (world_of (capture_image path w)) /\
  ((exists b w', capture_image path w = Done b w') \/
   ((exists w', capture_image path w = Blocked w') /\ ~ tools_terminate w)).
Proof.
  rewrite capture_image_chain.
  destruct (chain_outcome (backends path) path (after_cleanup path w)) as [S O].
  pose proof (cleanup_step path w) as C. split.
  - eapply chain_step_trans; eassumption.
  - destruct O as [O|[O T]]; [left; exact O | right]. split; [exact O|].
    intros T'. apply T. eapply tools_terminate_step; eassumption.
Qed.

(* ===================================================================== *)
(** ** The webhook dispatch *)
(* ===================================================================== *)

Lemma quiet_tick_posts w : quiet w (tick_posts w) [].
Proof. constructor; try reflexivity. simpl. now rewrite app_nil_r. Qed.

Lemma quiet_post_log w r l m :
  quiet w (emit (EvLog l m) (tick_posts (emit (EvPost r) w)))
        [EvPost r; EvLog l m].
Proof.
  change [EvPost r; EvLog l m] with ([EvPost r] ++ [] ++ [EvLog l m]).
  eapply quiet_trans; [apply quiet_emit|].
  eapply quiet_trans; [apply quiet_tick_posts | apply quiet_emit].
Qed.

Lemma post_and_log_done r w :
  exists w', post_and_log r w = Done tt w' /\
             quiet w w' [EvPost r; outcome_log (endpoint w (posts w) r)].
Proof.
  unfold post_and_log, outcome_log. unfold_m. cbv beta.
  destruct (endpoint w (posts w) r) as [c t|e]; cbv beta iota.
  - change ((c, t).1) with c; change ((c, t).2) with t.
    destruct ((200 <=? c) && (c <? 300))%Z; eexists;
      (split; [reflexivity | apply quiet_post_log]).
  - eexists; split; [reflexivity | apply quiet_post_log].
Qed.

Lemma send_discord_eq cfg d img w :
  send_discord cfg d img w =
  if webhook_unset cfg
  then Done tt (emit (EvLog ERROR NoWebhook) (emit (EvSendDiscord d img) w))
  else if open_denied img w
  then Done tt (emit (EvLog ERROR (DiscordError (OSError "PermissionError")))
                     (emit (EvSendDiscord d img) w))
  else post_and_log (request_for cfg d img (fs w)) (emit (EvSendDiscord d img) w).
Proof.
  unfold send_discord, request_for, open_denied, attachable, is_regular.
  unfold mbind at 1, M_bind at 1, bind at 1, mark at 1. cbv beta iota.
  destruct (webhook_unset cfg); [reflexivity|].
  destruct img as [p|]; [|reflexivity].
  destruct (String.eqb p "") eqn:Ep; [reflexivity|].
  unfold post_and_log, try_except, mbind, M_bind, bind, os_path_isfile, open_rb,
    log. cbv beta.
  rewrite Ep, ?fs_emit.
  destruct (fs w !! p) as [[|]|] eqn:E; cbv beta iota; simpl default;
    rewrite ?fs_emit, ?E; try reflexivity.
  change (can_open (emit (EvSendDiscord d (Some p)) w) p) with (can_open w p).
  destruct (can_open w p); reflexivity.
Qed.

(** [send_discord] always returns, and leaves exactly these events. *)
Lemma send_discord_done cfg d img w :
  exists w', send_discord cfg d img w = Done tt w' /\
             quiet w w' (EvSendDiscord d img :: discord_events cfg d img w).
Proof.
  rewrite send_discord_eq. unfold discord_events.
  destruct (webhook_unset cfg); [|destruct (open_denied img w)].
  - eexists. split; [reflexivity|].
    change (EvSendDiscord d img :: [EvLog ERROR NoWebhook])
      with ([EvSendDiscord d img] ++ [EvLog ERROR NoWebhook]).
    eapply quiet_trans; apply quiet_emit.
  - eexists. split; [reflexivity|].
    match goal with |- quiet _ _ (?a :: ?l) => change (a :: l) with ([a] ++ l) end.
    eapply quiet_trans; apply quiet_emit.
  - destruct (post_and_log_done (request_for cfg d img (fs w))
                (emit (EvSendDiscord d img) w)) as (w' & E & Q).
    exists w'. split; [exact E|].
    match goal with |- quiet _ _ (?a :: ?l) => change (a :: l) with ([a] ++ l) end.
    eapply quiet_trans; [apply quiet_emit | exact Q].
Qed.

Lemma post_and_log_keeps_files r w : fs (world_of (post_and_log r w)) = fs w.
Proof.
  unfold post_and_log. unfold_m. cbv beta.
  destruct (endpoint w (posts w) r) as [c t|e]; cbv beta iota.
  - change ((c, t).1) with c; change ((c, t).2) with t.
    destruct ((200 <=? c) && (c <? 300))%Z; reflexivity.
  - reflexivity.
Qed.

Lemma send_discord_keeps_files cfg d img w :
  fs (world_of (send_discord cfg d img w)) = fs w.
Proof.
  rewrite send_discord_eq. destruct (webhook_unset cfg); [reflexivity|].
  destruct (open_denied img w); [reflexivity|].
  rewrite post_and_log_keeps_files. reflexivity.
Qed.

Lemma discord_events_counts cfg d img w :
  count is_send (discord_events cfg d img w) = O /\
  count is_clear (discord_events cfg d img w) = O /\
  count is_capture (discord_events cfg d img w) = O /\
  count is_run (discord_events cfg d img w) = O /\
  count is_post (discord_events cfg d img w) =
    (if webhook_unset cfg then 0 else if open_denied img w then 0 else 1)%nat.
Proof.
  unfold discord_events, outcome_log.
  destruct (webhook_unset cfg); [repeat split; reflexivity|].
  destruct (open_denied img w); [repeat split; reflexivity|].
  destruct (endpoint w (posts w) (request_for cfg d img (fs w))) as [c t|e].
  - destruct ((200 <=? c) && (c <? 300))%Z; repeat split; reflexivity.
  - repeat split; reflexivity.
Qed.

(* ===================================================================== *)
(** ** One iteration of the loop *)
(* ===================================================================== *)

Lemma loop_body_out cfg st w :
  Qle_bool (dist_cm_of (sensor w (sensor_reads w))) (DISTANCE_THRESHOLD_CM cfg) = false ->
  loop_body cfg st w =
  Done {| last_sent := last_sent st; was_in_range := false |}
       (emit (EvSleep (SAMPLE_INTERVAL cfg))
          (if was_in_range st
           then emit (EvLog INFO Clear) (tick_clock (tick_sensor w))
           else tick_clock (tick_sensor w))).
Proof.
  intros H. unfold loop_body. unfold_m. cbv beta zeta.
  rewrite H. destruct st as [ls [|]]; reflexivity.
Qed.

Lemma loop_body_cool cfg st w :
  Qle_bool (dist_cm_of (sensor w (sensor_reads w))) (DISTANCE_THRESHOLD_CM cfg) = true ->
  Qle_bool (cooldown_left_at cfg (clock w (clock_reads w)) (last_sent st)) 0 = false ->
  loop_body cfg st w =
  Done {| last_sent := last_sent st; was_in_range := true |}
       (emit (EvSleep (SAMPLE_INTERVAL cfg))
          (emit (EvLog INFO (TriggerCooldown
                               (dist_cm_of (sensor w (sensor_reads w)))
                               (cooldown_left_at cfg (clock w (clock_reads w)) (last_sent st))))
                (tick_clock (tick_sensor w)))).
Proof.
  intros H1 H2. unfold loop_body. unfold_m. cbv beta zeta.
  rewrite H1.
  change (clock (tick_sensor w) (clock_reads (tick_sensor w))) with (clock w (clock_reads w)).
  rewrite H2. reflexivity.
Qed.

Lemma loop_body_send cfg st w :
  Qle_bool (dist_cm_of (sensor w (sensor_reads w))) (DISTANCE_THRESHOLD_CM cfg) = true ->
  Qle_bool (cooldown_left_at cfg (clock w (clock_reads w)) (last_sent st)) 0 = true ->
  (exists w1 cap,
      loop_body cfg st w = Blocked w1 /\ SEND_PHOTO cfg = true /\
      ~ tools_terminate w /\
      capture_image PHOTO_PATH (trigger_world cfg w) = Blocked w1 /\
      quiet (trigger_world cfg w) w1 cap /\ Forall capture_event cap) \/
  (exists w1 cap img w2,
      loop_body cfg st w =
        Done {| last_sent := clock w (S (clock_reads w)); was_in_range := true |}
             (emit (EvSleep (SAMPLE_INTERVAL cfg)) (tick_clock w2)) /\
      quiet (trigger_world cfg w) w1 cap /\ Forall pre_send_event cap /\
      (SEND_PHOTO cfg = false -> cap = [] /\ img = None) /\
      quiet w1 w2 (EvSendDiscord (dist_cm_of (sensor w (sensor_reads w))) img ::
                   discord_events cfg (dist_cm_of (sensor w (sensor_reads w))) img w1)).
Proof.
  intros H1 H2. unfold loop_body. unfold_m. cbv beta zeta.
  rewrite H1.
  change (clock (tick_sensor w) (clock_reads (tick_sensor w))) with (clock w (clock_reads w)).
  rewrite H2.
  fold (trigger_world cfg w).
  set (d := dist_cm_of (sensor w (sensor_reads w))).
  assert (Hfin : forall w1 cap img,
    quiet (trigger_world cfg w) w1 cap -> Forall pre_send_event cap ->
    (SEND_PHOTO cfg = false -> cap = [] /\ img = None) ->
    exists w2,
      match
        match
          match send_discord cfg d img w1 with
          | Done _ w'1 => Done (clock w'1 (clock_reads w'1)) (tick_clock w'1)
          | Raised e w'1 => Raised e w'1
          | Blocked w'1 => Blocked w'1
          end
        with
        | Done a w'0 => Done {| last_sent := a; was_in_range := true |} w'0
        | Raised e w'0 => Raised e w'0
        | Blocked w'0 => Blocked w'0
        end
      with
      | Done a w'0 => Done a (emit (EvSleep (SAMPLE_INTERVAL cfg)) w'0)
      | Raised e w'0 => Raised e w'0
      | Blocked w'0 => Blocked w'0
      end =
      Done {| last_sent := clock w (S (clock_reads w)); was_in_range := true |}
           (emit (EvSleep (SAMPLE_INTERVAL cfg)) (tick_clock w2)) /\
      quiet w1 w2 (EvSendDiscord d img :: discord_events cfg d img w1)).
  { intros w1 cap img Q F P.
    destruct (send_discord_done cfg d img w1) as (w2 & E & Q2).
    exists w2. rewrite E. split; [|exact Q2].
    rewrite (q_clock _ _ _ Q2), (q_clock_reads _ _ _ Q2).
    rewrite (q_clock _ _ _ Q), (q_clock_reads _ _ _ Q). reflexivity. }
  destruct (SEND_PHOTO cfg) eqn:Ph.
  - destruct (capture_image_outcome PHOTO_PATH (trigger_world cfg w))
      as [(cap & Q & F) [(b & w1 & E)|((w1 & E) & T)]]; rewrite E in *; simpl in Q.
    + right. destruct b.
      * destruct (Hfin w1 cap (Some PHOTO_PATH) Q) as (w2 & E2 & Q2).
        { eapply Forall_impl; [exact F|]. intros e He. left. exact He. }
        { discriminate. }
        exists w1, cap, (Some PHOTO_PATH), w2. rewrite E2.
        split; [reflexivity|]. split; [exact Q|]. split.
        { eapply Forall_impl; [exact F|]. intros e He. left. exact He. }
        split; [discriminate | exact Q2].
      * set (w1' := emit (EvLog WARNING CameraFailed) w1).
        assert (Q' : quiet (trigger_world cfg w) w1' (cap ++ [EvLog WARNING CameraFailed])).
        { eapply quiet_trans; [exact Q | apply quiet_emit]. }
        destruct (Hfin w1' _ None Q') as (w2 & E2 & Q2).
        { apply Forall_app. split.
          - eapply Forall_impl; [exact F|]. intros e He. left. exact He.
          - constructor; [right; reflexivity | constructor]. }
        { discriminate. }
        exists w1', (cap ++ [EvLog WARNING CameraFailed]), None, w2.
        rewrite E2. split; [reflexivity|]. split; [exact Q'|]. split.
        { apply Forall_app. split.
          - eapply Forall_impl; [exact F|]. intros e He. left. exact He.
          - constructor; [right; reflexivity | constructor]. }
        split; [discriminate | exact Q2].
    + left. exists w1, cap.
      split; [reflexivity|]. split; [reflexivity|]. split; [exact T|].
      split; [reflexivity|]. split; assumption.
  - right.
    destruct (Hfin (trigger_world cfg w) [] None (quiet_refl _)) as (w2 & E2 & Q2).
    { constructor. }
    { auto. }
    exists (trigger_world cfg w), [], None, w2. rewrite E2.
    split; [reflexivity|]. split; [apply quiet_refl|]. split; [constructor|].
    split; [auto | exact Q2].
Qed.

Lemma pre_send_counts evs :
  Forall pre_send_event evs ->
  count is_send evs = O /\ count is_post evs = O /\ count is_clear evs = O.
Proof.
  intros H. repeat split; apply count_none; intros e He;
    rewrite Forall_forall in H; specialize (H e);
    assert (He' : e ∈ evs) by (apply list_elem_of_In; exact He);
    specialize (H He'); destruct H as [H|H].
  all: try (subst e; reflexivity).
  all: destruct e as [l m| | |? | | |]; simpl in *;
    try reflexivity; try contradiction.
Qed.

Lemma discord_events_config_error cfg d img w :
  count is_config_error (discord_events cfg d img w) =
    (if webhook_unset cfg then 1 else 0)%nat.
Proof.
  unfold discord_events, outcome_log.
  destruct (webhook_unset cfg); [reflexivity|].
  destruct (open_denied img w); [reflexivity|].
  destruct (endpoint w (posts w) (request_for cfg d img (fs w))) as [c t|e];
    [destruct ((200 <=? c) && (c <? 300))%Z|]; reflexivity.
Qed.

Lemma pre_send_no_config_error evs :
  Forall pre_send_event evs -> count is_config_error evs = O.
Proof.
  intros H. apply count_none. intros e He. rewrite Forall_forall in H.
  assert (He' : e ∈ evs) by (apply list_elem_of_In; exact He).
  destruct (H e He') as [K|K]; [|subst e; reflexivity].
  destruct e as [l m| | |? | | |]; simpl in *; try reflexivity; contradiction.
Qed.

(** The sending branch, summarised: the iteration starts with the TRIGGER
    line; either the capture blocks on a process that never exits, before
    any send, or the iteration completes with one call of [send_discord],
    then the second clock reading, then the sleep. *)
Lemma loop_body_send_summary cfg st w :
  Qle_bool (dist_cm_of (sensor w (sensor_reads w))) (DISTANCE_THRESHOLD_CM cfg) = true ->
  Qle_bool (cooldown_left_at cfg (clock w (clock_reads w)) (last_sent st)) 0 = true ->
  exists evs,
    trace (world_of (loop_body cfg st w)) =
      trace w ++ EvLog INFO (TriggerSend (dist_cm_of (sensor w (sensor_reads w)))
                              (COOLDOWN_SECONDS cfg)) :: evs /\
    count is_clear evs = O /\
    sensor (world_of (loop_body cfg st w)) = sensor w /\
    sensor_reads (world_of (loop_body cfg st w)) = S (sensor_reads w) /\
    ((exists w1, loop_body cfg st w = Blocked w1 /\ SEND_PHOTO cfg = true /\
                 ~ tools_terminate w /\
                 capture_image PHOTO_PATH (trigger_world cfg w) = Blocked w1 /\
                 count is_send evs = O /\ count is_post evs = O) \/
     (exists w' body,
         loop_body cfg st w =
           Done {| last_sent := clock w (S (clock_reads w));
                   was_in_range := true |} w' /\
         evs = body ++ [EvSleep (SAMPLE_INTERVAL cfg)] /\
         clock_log w' =
           clock_log w ++ [length (trace w);
                           (length (trace w) + S (length body))%nat] /\
         count is_send evs = 1%nat /\
         posts_follow_sends cfg 1 (count is_post evs) /\
         count is_config_error evs = (if webhook_unset cfg then 1 else 0)%nat)).
Proof.
  intros H1 H2.
  destruct (loop_body_send cfg st w H1 H2)
    as [(w1 & cap & E & Ph & T & C & Q & F)
       |(w1 & cap & img & w2 & E & Q & F & P & Q2)];
    rewrite E; simpl world_of.
  - exists cap.
    destruct (capture_event_counts cap F) as (C1 & C2 & C3).
    split.
    { rewrite (q_trace _ _ _ Q). unfold trigger_world.
      simpl. rewrite <- app_assoc. reflexivity. }
    split; [exact C3|].
    split; [rewrite (q_sensor _ _ _ Q); reflexivity|].
    split; [rewrite (q_sensor_reads _ _ _ Q); reflexivity|].
    left. exists w1. auto 10.
  - set (d := dist_cm_of (sensor w (sensor_reads w))) in *.
    set (body := cap ++ (EvSendDiscord d img :: discord_events cfg d img w1)).
    exists (body ++ [EvSleep (SAMPLE_INTERVAL cfg)]).
    destruct (pre_send_counts cap F) as (C1 & C2 & C3).
    pose proof (pre_send_no_config_error cap F) as C4.
    destruct (discord_events_counts cfg d img w1) as (D1 & D2 & _ & _ & D5).
    pose proof (discord_events_config_error cfg d img w1) as D6.
    assert (T2 : trace w2 = trace w ++ EvLog INFO (TriggerSend d (COOLDOWN_SECONDS cfg))
                                 :: body).
    { rewrite (q_trace _ _ _ Q2), (q_trace _ _ _ Q). unfold trigger_world, body.
      simpl. rewrite <- !app_assoc. reflexivity. }
    split.
    { simpl. rewrite T2. rewrite <- app_assoc. reflexivity. }
    split.
    { unfold body. rewrite !count_app, C3.
      change (count is_clear (EvSendDiscord d img :: discord_events cfg d img w1))
        with (count is_clear (discord_events cfg d img w1)).
      rewrite D2. reflexivity. }
    split.
    { simpl. rewrite (q_sensor _ _ _ Q2), (q_sensor _ _ _ Q). reflexivity. }
    split.
    { simpl. rewrite (q_sensor_reads _ _ _ Q2), (q_sensor_reads _ _ _ Q).
      reflexivity. }
    right. eexists _, body. split; [reflexivity|]. split; [reflexivity|].
    assert (Cs : count is_send body = 1%nat).
    { unfold body. rewrite !count_app, C1.
      change (count is_send (EvSendDiscord d img :: discord_events cfg d img w1))
        with (S (count is_send (discord_events cfg d img w1))).
      rewrite D1. reflexivity. }
    assert (Cp : count is_post body =
                 (if webhook_unset cfg then 0
                  else if open_denied img w1 then 0 else 1)%nat).
    { unfold body. rewrite !count_app, C2.
      change (count is_post (EvSendDiscord d img :: discord_events cfg d img w1))
        with (count is_post (discord_events cfg d img w1)).
      rewrite D5. reflexivity. }
    split.
    { change (clock_log (emit (EvSleep (SAMPLE_INTERVAL cfg)) (tick_clock w2)))
        with (clock_log w2 ++ [length (trace w2)]).
      rewrite (q_clock_log _ _ _ Q2), (q_clock_log _ _ _ Q), T2.
      change (clock_log (trigger_world cfg w))
        with (clock_log w ++ [length (trace w)]).
      rewrite <- app_assoc, length_app. reflexivity. }
    split; [rewrite count_app, Cs; reflexivity|].
    split.
    { rewrite count_app, Cp. unfold posts_follow_sends.
      change (count is_post [EvSleep (SAMPLE_INTERVAL cfg)]) with O.
      rewrite Nat.add_0_r. split; [|split].
      - destruct (webhook_unset cfg); [lia|]. destruct (open_denied img w1); lia.
      - intros ->. reflexivity.
      - intros Ph U. rewrite U. destruct (P Ph) as [_ ->]. reflexivity. }
    unfold body. rewrite !count_app, C4.
    change (count is_config_error (EvSendDiscord d img :: discord_events cfg d img w1))
      with (count is_config_error (discord_events cfg d img w1)).
    rewrite D6. destruct (webhook_unset cfg); reflexivity.
Qed.


(* ===================================================================== *)
(** ** The three branches of an iteration *)
(* ===================================================================== *)

Ltac q_decide :=
  vm_compute; first [reflexivity | discriminate | intros ?; discriminate].

(** C1 (amended). An iteration whose sample is within the threshold and
    whose remaining cooldown is 0 calls [send_discord] exactly once,
    provided the capture step returns; [last_sent] is then set to a second
    reading of the clock, taken after the call of [send_discord] and
    everything it did and before the sleep, whatever the endpoint
    answered. The clock log gives the place of each reading among the
    events: the first comes before every event of the iteration, the
    second after all of them but the sleep. *)
Theorem tick_send_once_and_stamp (cfg : Config) (st : Locals) (w : World) :
  dist_cm_of (sensor w (sensor_reads w)) <= DISTANCE_THRESHOLD_CM cfg ->
  cooldown_left_at cfg (clock w (clock_reads w)) (last_sent st) == 0 ->
  capture_returns cfg (trigger_world cfg w) ->
  exists st' w' evs,
    loop_body cfg st w = Done st' w' /\
    new_events w w' = evs ++ [EvSleep (SAMPLE_INTERVAL cfg)] /\
    count is_send evs = 1%nat /\
    clock_log w' =
      clock_log w ++ [length (trace w); (length (trace w) + length evs)%nat] /\
    last_sent st' = clock w (S (clock_reads w)) /\
    was_in_range st' = true.
Proof.
  intros H1 H2 H3.
  apply Qle_bool_iff in H1. apply py_max_le_zero_iff in H2.
  destruct (loop_body_send_summary cfg st w H1 H2)
    as (evs & Ev & _ & _ & _ &
        [(w1 & E & Ph & _ & C & _)|(w' & body & E & -> & L & Cs & _)]).
  - exfalso. destruct H3 as [H3|(b & w0 & H3)]; congruence.
  - rewrite E in Ev. simpl in Ev.
    set (t := EvLog INFO (TriggerSend (dist_cm_of (sensor w (sensor_reads w)))
                                      (COOLDOWN_SECONDS cfg))) in *.
    exists {| last_sent := clock w (S (clock_reads w)); was_in_range := true |},
           w', (t :: body).
    split; [exact E|]. split; [exact (new_events_app _ _ _ Ev)|].
    split.
    { rewrite count_app in Cs.
      change (count is_send [EvSleep (SAMPLE_INTERVAL cfg)]) with O in Cs.
      change (count is_send (t :: body)) with (count is_send body). lia. }
    split; [exact L|]. split; reflexivity.
Qed.

Lemma tick_send_once_and_stamp_witness :
  exists st' w' evs,
    loop_body cfg_text main_init w_near_503 = Done st' w' /\
    new_events w_near_503 w' = evs ++ [EvSleep (SAMPLE_INTERVAL cfg_text)] /\
    count is_send evs = 1%nat /\
    clock_log w' =
      clock_log w_near_503 ++
        [length (trace w_near_503);
         (length (trace w_near_503) + length evs)%nat] /\
    last_sent st' = clock w_near_503 (S (clock_reads w_near_503)) /\
    was_in_range st' = true.
Proof.
  apply (tick_send_once_and_stamp cfg_text main_init w_near_503).
  - q_decide.
  - q_decide.
  - left. reflexivity.
Defined.

(** The failing endpoint: the request goes out, the failure is logged, and
    the clock is read a second time after both. *)
Example stamp_follows_failed_dispatch :
  match loop_body cfg_text main_init w_near_503 with
  | Done st' w' =>
      new_events w_near_503 w' =
        [EvLog INFO (TriggerSend (dist_cm_of (1 # 5)) 30);
         EvSendDiscord (dist_cm_of (1 # 5)) None;
         EvPost (JsonPost demo_url (dist_cm_of (1 # 5)) 15);
         EvLog WARNING (DiscordFailed 503 "");
         EvSleep (1 # 4)] /\
      clock_log w' = [0%nat; 4%nat] /\
      last_sent st' = 1700000003
  | _ => False
  end.
Proof. vm_compute. repeat split. Qed.

(** C1 as stated fails: with the clock at 1700000000 when the iteration
    samples it and at 1700000003 once [send_discord] has returned,
    [last_sent] becomes 1700000003, not the tick time. *)
Lemma tick_stamp_is_not_tick_time :
  dist_cm_of (sensor w_near (sensor_reads w_near)) <= DISTANCE_THRESHOLD_CM cfg_text /\
  cooldown_left_at cfg_text (clock w_near (clock_reads w_near))
                   (last_sent main_init) == 0 /\
  exists st' w',
    loop_body cfg_text main_init w_near = Done st' w' /\
    last_sent st' = 1700000003 /\
    clock w_near (clock_reads w_near) = 1700000000 /\
    ~ last_sent st' == clock w_near (clock_reads w_near).
Proof.
  split; [q_decide|]. split; [q_decide|].
  eexists _, _. split; [vm_compute; reflexivity|].
  split; [reflexivity|]. split; [reflexivity|]. q_decide.
Qed.

(** C2. An iteration whose sample is within the threshold while the
    remaining cooldown is positive logs the TRIGGER-cooldown line and
    sleeps, and does nothing else: no capture, no call of [send_discord],
    [last_sent] unchanged. *)
Theorem tick_on_cooldown_is_silent (cfg : Config) (st : Locals) (w : World) :
  dist_cm_of (sensor w (sensor_reads w)) <= DISTANCE_THRESHOLD_CM cfg ->
  0 < cooldown_left_at cfg (clock w (clock_reads w)) (last_sent st) ->
  exists w',
    loop_body cfg st w =
      Done {| last_sent := last_sent st; was_in_range := true |} w' /\
    new_events w w' =
      [EvLog INFO (TriggerCooldown
                     (dist_cm_of (sensor w (sensor_reads w)))
                     (cooldown_left_at cfg (clock w (clock_reads w)) (last_sent st)));
       EvSleep (SAMPLE_INTERVAL cfg)] /\
    fs w' = fs w /\ posts w' = posts w.
Proof.
  intros H1 H2. apply Qle_bool_iff in H1. apply Qle_bool_false_iff in H2.
  eexists. split; [apply (loop_body_cool cfg st w H1 H2)|].
  split; [|split; reflexivity].
  apply new_events_app. simpl. rewrite <- app_assoc. reflexivity.
Qed.

Lemma tick_on_cooldown_is_silent_witness :
  exists w',
    loop_body cfg_text recently_sent w_near =
      Done {| last_sent := last_sent recently_sent; was_in_range := true |} w' /\
    new_events w_near w' =
      [EvLog INFO (TriggerCooldown
                     (dist_cm_of (sensor w_near (sensor_reads w_near)))
                     (cooldown_left_at cfg_text (clock w_near (clock_reads w_near))
                                       (last_sent recently_sent)));
       EvSleep (SAMPLE_INTERVAL cfg_text)] /\
    fs w' = fs w_near /\ posts w' = posts w_near.
Proof.
  apply (tick_on_cooldown_is_silent cfg_text recently_sent w_near).
  - q_decide.
  - q_decide.
Defined.

(** C3. An iteration whose sample is beyond the threshold attempts no
    capture and no notification and leaves [last_sent] as it was; it logs
    CLEAR when [was_in_range] was true, sets [was_in_range] to false, and
    sleeps. *)
Theorem tick_out_of_range_frame (cfg : Config) (st : Locals) (w : World) :
  DISTANCE_THRESHOLD_CM cfg < dist_cm_of (sensor w (sensor_reads w)) ->
  exists w',
    loop_body cfg st w =
      Done {| last_sent := last_sent st; was_in_range := false |} w' /\
    new_events w w' =
      (if was_in_range st then [EvLog INFO Clear] else [])
        ++ [EvSleep (SAMPLE_INTERVAL cfg)] /\
    fs w' = fs w /\ posts w' = posts w.
Proof.
  intros H. apply Qle_bool_false_iff in H.
  eexists. split; [apply (loop_body_out cfg st w H)|].
  destruct (was_in_range st); (split; [|split; reflexivity]);
    apply new_events_app; simpl; rewrite <- ?app_assoc; reflexivity.
Qed.

Lemma tick_out_of_range_frame_witness :
  exists w',
    loop_body cfg_text recently_sent w_far =
      Done {| last_sent := last_sent recently_sent; was_in_range := false |} w' /\
    new_events w_far w' =
      (if was_in_range recently_sent then [EvLog INFO Clear] else [])
        ++ [EvSleep (SAMPLE_INTERVAL cfg_text)] /\
    fs w' = fs w_far /\ posts w' = posts w_far.
Proof.
  apply (tick_out_of_range_frame cfg_text recently_sent w_far). q_decide.
Defined.

(* ===================================================================== *)
(** ** Any iteration, and runs of iterations *)
(* ===================================================================== *)

Lemma posts_follow_none cfg : posts_follow_sends cfg O O.
Proof. repeat split; auto. Qed.

Lemma posts_follow_add cfg a p b q :
  posts_follow_sends cfg a p -> posts_follow_sends cfg b q ->
  posts_follow_sends cfg (a + b) (p + q).
Proof.
  intros (A1 & A2 & A3) (B1 & B2 & B3). split; [lia|]. split.
  - intros U. rewrite (A2 U), (B2 U). reflexivity.
  - intros Ph U. rewrite (A3 Ph U), (B3 Ph U). reflexivity.
Qed.

(** What every iteration does, whichever branch it takes. *)
Lemma loop_body_tick cfg st w :
  let flag := Qle_bool (dist_cm_of (sensor w (sensor_reads w)))
                       (DISTANCE_THRESHOLD_CM cfg) in
  let cool := Qle_bool (cooldown_left_at cfg (clock w (clock_reads w))
                                         (last_sent st)) 0 in
  exists evs,
    trace (world_of (loop_body cfg st w)) = trace w ++ evs /\
    sensor (world_of (loop_body cfg st w)) = sensor w /\
    sensor_reads (world_of (loop_body cfg st w)) = S (sensor_reads w) /\
    count is_clear evs = (if was_in_range st && negb flag then 1 else 0)%nat /\
    match loop_body cfg st w with
    | Done st' _ =>
        was_in_range st' = flag /\
        ((count is_send evs = 1%nat /\
          last_sent st' = clock w (S (clock_reads w)) /\
          flag = true /\ cool = true) \/
         (count is_send evs = O /\ last_sent st' = last_sent st /\
          (flag = false \/ cool = false))) /\
        posts_follow_sends cfg (count is_send evs) (count is_post evs)
    | Blocked _ =>
        flag = true /\ cool = true /\ count is_send evs = O /\
        count is_post evs = O /\ SEND_PHOTO cfg = true /\ ~ tools_terminate w
    | Raised _ _ => False
    end.
Proof.
  intros flag cool.
  destruct flag eqn:F; subst flag.
  - destruct cool eqn:C; subst cool.
    + destruct (loop_body_send_summary cfg st w F C)
        as (evs & Ev & Cl & S1 & S2 &
            [(w1 & E & Ph & T & _ & Cs & Cp)|(w' & body & E & _ & _ & Cs & Cp & _)]).
      * eexists. split; [exact Ev|]. split; [exact S1|]. split; [exact S2|].
        split.
        { rewrite andb_false_r.
          change (count is_clear (EvLog INFO (TriggerSend _ _) :: evs))
            with (count is_clear evs). exact Cl. }
        rewrite E.
        change (count is_send (EvLog INFO (TriggerSend _ _) :: evs))
          with (count is_send evs).
        change (count is_post (EvLog INFO (TriggerSend _ _) :: evs))
          with (count is_post evs). auto 10.
      * eexists. split; [exact Ev|]. split; [exact S1|]. split; [exact S2|].
        split.
        { rewrite andb_false_r.
          change (count is_clear (EvLog INFO (TriggerSend _ _) :: evs))
            with (count is_clear evs). exact Cl. }
        rewrite E.
        change (count is_send (EvLog INFO (TriggerSend _ _) :: evs))
          with (count is_send evs).
        change (count is_post (EvLog INFO (TriggerSend _ _) :: evs))
          with (count is_post evs).
        split; [reflexivity|]. split; [left; auto|].
        rewrite Cs. exact Cp.
    + rewrite (loop_body_cool cfg st w F C). simpl world_of.
      exists [EvLog INFO (TriggerCooldown
                            (dist_cm_of (sensor w (sensor_reads w)))
                            (cooldown_left_at cfg (clock w (clock_reads w))
                                              (last_sent st)));
              EvSleep (SAMPLE_INTERVAL cfg)].
      split.
      { simpl. rewrite <- app_assoc. reflexivity. }
      split; [reflexivity|]. split; [reflexivity|]. split.
      { rewrite andb_false_r. reflexivity. }
      split; [reflexivity|]. split; [right; auto|].
      apply posts_follow_none.
  - rewrite (loop_body_out cfg st w F). simpl world_of.
    destruct (was_in_range st);
      [exists [EvLog INFO Clear; EvSleep (SAMPLE_INTERVAL cfg)]
      |exists [EvSleep (SAMPLE_INTERVAL cfg)]];
      (split; [simpl; rewrite <- ?app_assoc; reflexivity|]).
    all: split; [reflexivity|]; split; [reflexivity|]; split; [reflexivity|].
    all: split; [reflexivity|]; split; [right; auto|].
    all: apply posts_follow_none.
Qed.

Lemma flags_from_S cfg w w1 k :
  sensor w1 = sensor w -> sensor_reads w1 = S (sensor_reads w) ->
  flags_from cfg w (S k) =
  Qle_bool (dist_cm_of (sensor w (sensor_reads w))) (DISTANCE_THRESHOLD_CM cfg)
    :: flags_from cfg w1 k.
Proof.
  intros Hs Hr. unfold flags_from.
  change (seq 0 (S k)) with (O :: seq 1 k). rewrite <- seq_shift.
  cbn [List.map]. rewrite Nat.add_0_r. f_equal.
  rewrite List.map_map. apply List.map_ext. intros i.
  rewrite Hs, Hr, Nat.add_succ_r. reflexivity.
Qed.

(** A run of [n] iterations: it never raises, it consumes one sensor
    reading per started iteration, and it logs CLEAR once per falling edge
    of the in-range flag. *)
Lemma main_loop_run cfg n : forall st w,
  exists evs k,
    trace (world_of (main_loop cfg n st w)) = trace w ++ evs /\
    sensor (world_of (main_loop cfg n st w)) = sensor w /\
    sensor_reads (world_of (main_loop cfg n st w)) = (sensor_reads w + k)%nat /\
    count is_clear evs = falling_edges (was_in_range st) (flags_from cfg w k) /\
    match main_loop cfg n st w with
    | Done st' _ => k = n /\ (count is_send evs = O -> last_sent st' = last_sent st)
    | Blocked _ => (k <= n)%nat
    | Raised _ _ => False
    end.
Proof.
  induction n as [|n IH]; intros st w.
  - exists [], O. simpl. rewrite app_nil_r, Nat.add_0_r. repeat split; auto.
  - simpl main_loop. unfold mbind, M_bind, bind.
    destruct (loop_body_tick cfg st w) as (evs1 & T1 & S1 & R1 & C1 & O1).
    destruct (loop_body cfg st w) as [st1 w1|e w1|w1]; simpl world_of in *.
    + destruct O1 as (W1 & L1 & _).
      destruct (IH st1 w1) as (evs2 & k2 & T2 & S2 & R2 & C2 & O2).
      exists (evs1 ++ evs2), (S k2).
      split; [rewrite T2, T1, app_assoc; reflexivity|].
      split; [congruence|].
      split; [rewrite R2, R1; lia|].
      split.
      { rewrite count_app, C1, C2, (flags_from_S cfg w w1 k2 S1 R1), W1.
        reflexivity. }
      destruct (main_loop cfg n st1 w1) as [st2 w2|e w2|w2].
      * destruct O2 as [-> O2]. split; [reflexivity|].
        rewrite count_app. intros Z.
        assert (Z1 : count is_send evs1 = O) by lia.
        assert (Z2 : count is_send evs2 = O) by lia.
        rewrite (O2 Z2).
        destruct L1 as [(L1 & _)|(_ & L1 & _)]; [congruence | exact L1].
      * exact O2.
      * lia.
    + contradiction.
    + destruct O1 as (F & _).
      exists evs1, 1%nat.
      split; [exact T1|]. split; [exact S1|]. split; [rewrite R1; lia|].
      split; [|lia].
      rewrite C1. unfold flags_from. simpl.
      rewrite (Nat.add_0_r (sensor_reads w)), F, andb_false_r. reflexivity.
Qed.

(** While every sample is beyond the threshold, the run completes and logs
    CLEAR on its first iteration only, and only when it started in range. *)
Lemma main_loop_out_of_range cfg n : forall st w,
  (forall i, (i < n)%nat ->
     DISTANCE_THRESHOLD_CM cfg < dist_cm_of (sensor w (sensor_reads w + i)%nat)) ->
  exists st' w' evs,
    main_loop cfg n st w = Done st' w' /\
    trace w' = trace w ++ evs /\
    count is_clear evs = (if was_in_range st && (0 <? n)%nat then 1 else 0)%nat /\
    ((0 < n)%nat -> was_in_range st' = false) /\
    last_sent st' = last_sent st.
Proof.
  induction n as [|n IH]; intros st w H.
  - exists st, w, []. simpl. rewrite app_nil_r, andb_false_r.
    repeat split; try reflexivity. lia.
  - simpl main_loop. unfold mbind, M_bind, bind.
    assert (F : Qle_bool (dist_cm_of (sensor w (sensor_reads w)))
                         (DISTANCE_THRESHOLD_CM cfg) = false).
    { apply Qle_bool_false_iff. specialize (H O). rewrite Nat.add_0_r in H.
      apply H. lia. }
    destruct (loop_body_tick cfg st w) as (evs1 & T1 & S1 & R1 & C1 & _).
    rewrite (loop_body_out cfg st w F) in *. simpl world_of in *.
    match goal with
    | |- context [main_loop cfg n ?s ?v] =>
        destruct (IH s v) as (st' & w' & evs2 & E & T2 & C2 & W2 & L2)
    end.
    { intros i Hi. rewrite S1, R1.
      replace (S (sensor_reads w) + i)%nat with (sensor_reads w + S i)%nat by lia.
      apply H. lia. }
    exists st', w', (evs1 ++ evs2).
    split; [exact E|].
    split; [rewrite T2, T1, app_assoc; reflexivity|].
    split.
    { rewrite count_app, C1, C2, F. simpl.
      destruct (was_in_range st); reflexivity. }
    split; [|exact L2].
    intros _. destruct n as [|n'].
    + simpl in E. inversion E. reflexivity.
    + apply W2. lia.
Qed.

(** C4. Over any run of iterations, the number of CLEAR lines equals the
    number of falling edges of the in-range flag over the samples of the
    iterations that started (all [n] of them when the run completes); and
    while the samples stay beyond the threshold the run logs CLEAR on its
    first iteration only, and only if [was_in_range] was true, after which
    [was_in_range] is false. *)
Theorem clear_once_per_excursion (cfg : Config) (n : nat) (st : Locals) (w : World) :
  count is_clear (new_events w (world_of (main_loop cfg n st w))) =
    falling_edges (was_in_range st)
      (flags_from cfg w
         (sensor_reads (world_of (main_loop cfg n st w)) - sensor_reads w)) /\
  (forall st' w', main_loop cfg n st w = Done st' w' ->
                  (sensor_reads w' - sensor_reads w)%nat = n) /\
  ((forall i, (i < n)%nat ->
      DISTANCE_THRESHOLD_CM cfg < dist_cm_of (sensor w (sensor_reads w + i)%nat)) ->
   exists st' w',
     main_loop cfg n st w = Done st' w' /\
     count is_clear (new_events w w') =
       (if was_in_range st && (0 <? n)%nat then 1 else 0)%nat /\
     ((0 < n)%nat -> was_in_range st' = false)).
Proof.
  destruct (main_loop_run cfg n st w) as (evs & k & T & _ & R & C & O).
  split; [|split].
  - rewrite (new_events_app _ _ _ T), R.
    replace (sensor_reads w + k - sensor_reads w)%nat with k by lia. exact C.
  - intros st' w' E. rewrite E in *. simpl in R. destruct O as [-> _]. lia.
  - intros H.
    destruct (main_loop_out_of_range cfg n st w H)
      as (st' & w' & evs' & E & T' & C' & W' & _).
    exists st', w'. split; [exact E|].
    rewrite (new_events_app _ _ _ T'). split; assumption.
Qed.

Lemma clear_once_per_excursion_witness :
  exists st' w',
    main_loop cfg_text 3 recently_sent w_far = Done st' w' /\
    count is_clear (new_events w_far w') =
      (if was_in_range recently_sent && (0 <? 3)%nat then 1 else 0)%nat /\
    ((0 < 3)%nat -> was_in_range st' = false).
Proof.
  apply (proj2 (proj2 (clear_once_per_excursion cfg_text 3 recently_sent w_far))).
  intros i Hi. q_decide.
Defined.

(** Two samples in range, then two out of range: one CLEAR, on the third
    iteration. *)
Example clear_logged_once_when_leaving :
  exists st' w',
    main_loop cfg_text 4 main_init w_leaving = Done st' w' /\
    List.filter is_clear (new_events w_leaving w') = [EvLog INFO Clear] /\
    nth_error (new_events w_leaving w') 7 = Some (EvLog INFO Clear) /\
    was_in_range st' = false.
Proof.
  eexists _, _. split; [vm_compute; reflexivity|].
  repeat split; vm_compute; reflexivity.
Qed.

(* ===================================================================== *)
(** ** Claims about the capture chain *)
(* ===================================================================== *)

Lemma chain_done_inv path bs : forall w0 b w',
  chain bs path w0 = Done b w' ->
  (exists pre tool cmd post w1,
      bs = pre ++ (tool, cmd) :: post /\ skips pre w0 w1 /\
      which_and_run tool cmd w1 = Done true w' /\
      b = is_regular (fs w') path) \/
  (skips bs w0 w' /\ b = false).
Proof.
  induction bs as [|[tool cmd] rest IH]; intros w0 b w' H.
  - inversion H. right. split; reflexivity.
  - rewrite chain_cons in H.
    destruct (which_and_run tool cmd w0) as [[|] w1|e w1|w1] eqn:E;
      try discriminate.
    + inversion H; subst. left.
      exists [], tool, cmd, rest, w0. simpl. auto.
    + destruct (IH w1 b w' H)
        as [(pre & t & c & post & w2 & -> & Sk & R & ->)|[Sk ->]].
      * left. exists ((tool, cmd) :: pre), t, c, post, w2.
        split; [reflexivity|]. split; [|auto].
        simpl. exists w1. auto.
      * right. split; [|reflexivity]. simpl. exists w1. auto.
Qed.

Lemma fs_after_cleanup path w : fs (after_cleanup path w) = cleaned path w.
Proof.
  rewrite after_cleanup_eq. unfold cleaned, is_regular.
  destruct (String.eqb path ""); [reflexivity|].
  destruct (fs w !! path) as [[|]|]; [destruct (can_remove w path)| |];
    reflexivity.
Qed.

Lemma first_clean_exit_ext w1 w0 bs : forall f,
  which w1 = which w0 -> spawn w1 = spawn w0 ->
  first_clean_exit w1 f bs = first_clean_exit w0 f bs.
Proof.
  induction bs as [|[tool cmd] rest IH]; intros f Hw Hs; [reflexivity|].
  simpl. rewrite Hw, Hs.
  destruct (which w0 tool); [|apply IH; assumption].
  destruct (spawn w0 cmd f) as [p|]; [|rewrite (IH f Hw Hs); reflexivity].
  destruct (duration p); [|reflexivity].
  destruct (exit_code p =? 0)%Z; [reflexivity|].
  rewrite (IH (fs_after p) Hw Hs). reflexivity.
Qed.

(** The chain of the code does what [first_clean_exit] says. *)
Lemma chain_refines path bs : forall w0,
  exists evs,
    trace (world_of (chain bs path w0)) = trace w0 ++ evs /\
    List.filter is_run evs =
      List.map (fun c => EvRun c None) (first_clean_exit w0 (fs w0) bs).1 /\
    match (first_clean_exit w0 (fs w0) bs).2 with
    | StoppedAt f =>
        exists w', chain bs path w0 = Done (is_regular f path) w' /\ fs w' = f
    | AllSkipped f =>
        exists w', chain bs path w0 = Done false w' /\ fs w' = f
    | HungAt => exists w', chain bs path w0 = Blocked w'
    end.
Proof.
  induction bs as [|[tool cmd] rest IH]; intros w0.
  - exists []. simpl. rewrite app_nil_r. repeat split. eauto.
  - rewrite chain_cons. cbn [first_clean_exit].
    destruct (which w0 tool) eqn:Wh.
    2:{ assert (R : which_and_run tool cmd w0 = Done false w0)
          by (apply which_and_run_false; left; auto).
        rewrite R. apply IH. }
    destruct (spawn w0 cmd (fs w0)) as [p|] eqn:Sp.
    2:{ assert (R : which_and_run tool cmd w0 =
                    Done false (emit (EvRun cmd None) w0))
          by (apply which_and_run_false; right; left; auto).
        rewrite R.
        destruct (IH (emit (EvRun cmd None) w0)) as (e2 & T2 & F2 & O2).
        change (fs (emit (EvRun cmd None) w0)) with (fs w0) in F2, O2.
        rewrite (first_clean_exit_ext (emit (EvRun cmd None) w0) w0 rest
                   (fs w0) eq_refl eq_refl) in F2, O2.
        exists (EvRun cmd None :: e2). split.
        { rewrite T2. simpl. rewrite <- app_assoc. reflexivity. }
        split; [simpl; rewrite F2; reflexivity | exact O2]. }
    destruct (duration p) as [d|] eqn:Du.
    2:{ assert (R : which_and_run tool cmd w0 = Blocked (emit (EvRun cmd None) w0)).
        { apply which_and_run_blocked. split; [exact Wh|]. exists p. auto. }
        rewrite R. exists [EvRun cmd None]. repeat split; simpl; eauto. }
    destruct (Z.eqb_spec (exit_code p) 0) as [Ex|Ex].
    + assert (R : which_and_run tool cmd w0 =
                  Done true (set_fs (fs_after p) (emit (EvRun cmd None) w0))).
      { apply which_and_run_true. split; [exact Wh|]. exists p, d. auto. }
      rewrite R. exists [EvRun cmd None]. repeat split; simpl; eauto.
    + set (w1 := set_fs (fs_after p) (emit (EvRun cmd None) w0)).
      assert (R : which_and_run tool cmd w0 = Done false w1).
      { apply which_and_run_false. right. right. split; [exact Wh|].
        exists p, d. auto. }
      rewrite R.
      destruct (IH w1) as (e2 & T2 & F2 & O2).
      change (fs w1) with (fs_after p) in F2, O2.
      rewrite (first_clean_exit_ext w1 w0 rest (fs_after p) eq_refl eq_refl)
        in F2, O2.
      exists (EvRun cmd None :: e2). split.
      { rewrite T2. unfold w1. simpl. rewrite <- app_assoc. reflexivity. }
      split; [simpl; rewrite F2; reflexivity | exact O2].
Qed.

(** C5 (amended). [capture_image] goes through rpicam-still,
    libcamera-still, fswebcam in this order. It skips a backend that is
    not installed, that cannot be started, or whose process exits with a
    code other than 0. At the first backend whose process exits with code
    0 it stops and returns whether the output is a regular file at that
    moment, without starting a later backend, so a clean exit that leaves
    no file yields failure. It returns failure also when every backend was
    skipped. The processes it starts are those [first_clean_exit] lists. *)
Theorem capture_chain_first_clean_exit (path : string) (w : World) :
  (List.filter is_run (new_events w (world_of (capture_image path w))) =
     List.map (fun c => EvRun c None)
              (first_clean_exit w (cleaned path w) (backends path)).1 /\
   match (first_clean_exit w (cleaned path w) (backends path)).2 with
   | StoppedAt f =>
       exists w', capture_image path w = Done (is_regular f path) w' /\ fs w' = f
   | AllSkipped f =>
       exists w', capture_image path w = Done false w' /\ fs w' = f
   | HungAt => exists w', capture_image path w = Blocked w'
   end) /\
  (forall p d,
      which w "rpicam-still" = true ->
      spawn w (rpicam_cmd path) (cleaned path w) = Some p ->
      duration p = Some d ->
      exit_code p = 0%Z ->
      exists w',
        capture_image path w = Done (is_regular (fs_after p) path) w' /\
        List.filter is_run (new_events w w') = [EvRun (rpicam_cmd path) None]).
Proof.
  assert (G : List.filter is_run (new_events w (world_of (capture_image path w))) =
                List.map (fun c => EvRun c None)
                  (first_clean_exit w (cleaned path w) (backends path)).1 /\
              match (first_clean_exit w (cleaned path w) (backends path)).2 with
              | StoppedAt f =>
                  exists w', capture_image path w = Done (is_regular f path) w'
                             /\ fs w' = f
              | AllSkipped f =>
                  exists w', capture_image path w = Done false w' /\ fs w' = f
              | HungAt => exists w', capture_image path w = Blocked w'
              end).
  { rewrite capture_image_chain.
    destruct (cleanup_step path w) as (e1 & Q1 & _).
    destruct (cleanup_starts path w) as (e1' & T1 & S1 & _).
    destruct (chain_refines path (backends path) (after_cleanup path w))
      as (e2 & T2 & F2 & O2).
    rewrite (first_clean_exit_ext (after_cleanup path w) w (backends path)
               _ (q_which _ _ _ Q1) (q_spawn _ _ _ Q1)) in F2, O2.
    rewrite fs_after_cleanup in F2, O2. split; [|exact O2].
    assert (T : trace (world_of (chain (backends path) path (after_cleanup path w)))
                = trace w ++ (e1' ++ e2)).
    { rewrite T2, T1, app_assoc. reflexivity. }
    rewrite (new_events_app _ _ _ T), List.filter_app, S1. exact F2. }
  split; [exact G|].
  intros p d Wh Sp Du Ex. destruct G as [G1 G2].
  change (backends path)
    with (("rpicam-still", rpicam_cmd path) ::
          [("libcamera-still", libcamera_cmd path);
           ("fswebcam", fswebcam_cmd path)]) in G1, G2.
  cbn [first_clean_exit] in G1, G2.
  rewrite Wh, Sp, Du, Ex in G1, G2. cbn [Z.eqb fst snd] in G1, G2.
  destruct G2 as (w' & E & _). exists w'. split; [exact E|].
  rewrite E in G1. exact G1.
Qed.

Lemma capture_chain_first_clean_exit_witness :
  exists w',
    capture_image PHOTO_PATH w_silent_cam =
      Done (is_regular (cleaned PHOTO_PATH w_silent_cam) PHOTO_PATH) w' /\
    List.filter is_run (new_events w_silent_cam w') =
      [EvRun (rpicam_cmd PHOTO_PATH) None].
Proof.
  apply (proj2 (capture_chain_first_clean_exit PHOTO_PATH w_silent_cam)
           {| duration := Some 1; exit_code := 0;
              fs_after := cleaned PHOTO_PATH w_silent_cam |} 1).
  - reflexivity.
  - reflexivity.
  - reflexivity.
  - reflexivity.
Defined.

(** C5 as stated fails: rpicam-still is installed, exits with code 0 and
    leaves no file; [capture_image] returns failure at once, having started
    rpicam-still only, although libcamera-still is installed and would have
    exited with code 0 with the photo written. *)
Lemma clean_exit_without_file_ends_chain :
  which w_silent_cam "rpicam-still" = true /\
  which w_silent_cam "libcamera-still" = true /\
  match spawn w_silent_cam (rpicam_cmd PHOTO_PATH)
              (cleaned PHOTO_PATH w_silent_cam) with
  | Some p =>
      exit_code p = 0%Z /\ duration p = Some 1 /\
      fs_after p !! PHOTO_PATH = None /\
      match spawn w_silent_cam (libcamera_cmd PHOTO_PATH) (fs_after p) with
      | Some p2 =>
          exit_code p2 = 0%Z /\ duration p2 = Some 1 /\
          fs_after p2 !! PHOTO_PATH = Some RegularFile
      | None => False
      end
  | None => False
  end /\
  match capture_image PHOTO_PATH w_silent_cam with
  | Done b w' =>
      b = false /\
      List.filter is_run (new_events w_silent_cam w') =
        [EvRun (rpicam_cmd PHOTO_PATH) None]
  | _ => False
  end.
Proof. vm_compute. repeat split. Qed.

(* ===================================================================== *)
(** ** Claims about the stamp [last_sent] *)
(* ===================================================================== *)

(** C6 (amended). [last_sent] is set exactly in the iterations that call
    [send_discord]. An iteration whose sample is beyond the threshold, or
    whose remaining cooldown is positive, completes without calling
    [send_discord], issues no request and keeps [last_sent]. An iteration
    whose sample is within the threshold and whose remaining cooldown is 0
    calls [send_discord] once (provided the capture step returns) and then
    sets [last_sent] to the next clock reading, whether or not a webhook is
    configured: with no valid webhook the call logs the configuration
    error once and issues no request, and [last_sent] is set all the same.
    With a webhook and photos disabled the call issues one request. An
    iteration that does not complete is blocked before any call of
    [send_discord]; no iteration raises. *)
Theorem last_sent_set_iff_send_called (cfg : Config) (st : Locals) (w : World) :
  (DISTANCE_THRESHOLD_CM cfg < dist_cm_of (sensor w (sensor_reads w)) \/
   0 < cooldown_left_at cfg (clock w (clock_reads w)) (last_sent st) ->
   exists st' w',
     loop_body cfg st w = Done st' w' /\
     count is_send (new_events w w') = O /\
     count is_post (new_events w w') = O /\
     last_sent st' = last_sent st) /\
  (dist_cm_of (sensor w (sensor_reads w)) <= DISTANCE_THRESHOLD_CM cfg ->
   cooldown_left_at cfg (clock w (clock_reads w)) (last_sent st) == 0 ->
   capture_returns cfg (trigger_world cfg w) ->
   exists st' w',
     loop_body cfg st w = Done st' w' /\
     count is_send (new_events w w') = 1%nat /\
     last_sent st' = clock w (S (clock_reads w)) /\
     (count is_post (new_events w w') <= 1)%nat /\
     (webhook_unset cfg = true ->
      count is_post (new_events w w') = O /\
      count is_config_error (new_events w w') = 1%nat) /\
     (webhook_unset cfg = false ->
      count is_config_error (new_events w w') = O /\
      (SEND_PHOTO cfg = false -> count is_post (new_events w w') = 1%nat))) /\
  (forall w',
     loop_body cfg st w = Blocked w' ->
     count is_send (new_events w w') = O /\
     count is_post (new_events w w') = O) /\
  (forall e w', loop_body cfg st w <> Raised e w').
Proof.
  split; [|split; [|split]].
  - intros H.
    destruct (Qle_bool (dist_cm_of (sensor w (sensor_reads w)))
                       (DISTANCE_THRESHOLD_CM cfg)) eqn:F.
    + destruct H as [H|H].
      { apply Qle_bool_false_iff in H. congruence. }
      apply Qle_bool_false_iff in H.
      rewrite (loop_body_cool cfg st w F H). eexists _, _.
      split; [reflexivity|].
      erewrite new_events_app
        by (simpl; rewrite <- app_assoc; reflexivity).
      repeat split.
    + rewrite (loop_body_out cfg st w F). eexists _, _.
      split; [reflexivity|].
      destruct (was_in_range st);
        (erewrite new_events_app
           by (simpl; rewrite <- ?app_assoc; reflexivity));
        repeat split.
  - intros H1 H2 H3.
    apply Qle_bool_iff in H1. apply py_max_le_zero_iff in H2.
    destruct (loop_body_send_summary cfg st w H1 H2)
      as (evs & Ev & _ & _ & _ &
          [(w1 & E & Ph & _ & C & _)
          |(w' & body & E & _ & _ & Cs & (P1 & P2 & P3) & Ce)]).
    { exfalso. destruct H3 as [H3|(b & w0 & H3)]; congruence. }
    rewrite E in Ev. simpl in Ev.
    eexists _, w'. split; [exact E|].
    rewrite (new_events_app _ _ _ Ev).
    change (count is_send (EvLog INFO (TriggerSend _ _) :: evs))
      with (count is_send evs).
    change (count is_post (EvLog INFO (TriggerSend _ _) :: evs))
      with (count is_post evs).
    change (count is_config_error (EvLog INFO (TriggerSend _ _) :: evs))
      with (count is_config_error evs).
    split; [exact Cs|]. split; [reflexivity|]. split; [exact P1|]. split.
    + intros U. split; [exact (P2 U)|]. rewrite Ce, U. reflexivity.
    + intros U. split; [rewrite Ce, U; reflexivity|].
      intros Ph. exact (P3 Ph U).
  - intros w' E.
    destruct (loop_body_tick cfg st w) as (evs & T & _ & _ & _ & O).
    rewrite E in T, O. simpl world_of in T.
    rewrite (new_events_app _ _ _ T).
    destruct O as (_ & _ & Cs & Cp & _). auto.
  - intros e w' E.
    destruct (loop_body_tick cfg st w) as (evs & _ & _ & _ & _ & O).
    rewrite E in O. exact O.
Qed.

Lemma last_sent_set_iff_send_called_witness :
  (exists st' w',
     loop_body cfg_text recently_sent w_near = Done st' w' /\
     count is_send (new_events w_near w') = O /\
     count is_post (new_events w_near w') = O /\
     last_sent st' = last_sent recently_sent) /\
  (exists st' w',
     loop_body cfg_no_hook main_init w_near = Done st' w' /\
     count is_send (new_events w_near w') = 1%nat /\
     last_sent st' = clock w_near (S (clock_reads w_near)) /\
     (count is_post (new_events w_near w') <= 1)%nat /\
     (webhook_unset cfg_no_hook = true ->
      count is_post (new_events w_near w') = O /\
      count is_config_error (new_events w_near w') = 1%nat) /\
     (webhook_unset cfg_no_hook = false ->
      count is_config_error (new_events w_near w') = O /\
      (SEND_PHOTO cfg_no_hook = false ->
       count is_post (new_events w_near w') = 1%nat))).
Proof.
  split.
  - apply (proj1 (last_sent_set_iff_send_called cfg_text recently_sent w_near)).
    right. q_decide.
  - apply (proj1 (proj2 (last_sent_set_iff_send_called cfg_no_hook main_init
                           w_near))).
    + q_decide.
    + q_decide.
    + left. reflexivity.
Defined.

(** C6 as stated fails: with [WEBHOOK_URL] at its placeholder, an in-range
    iteration off cooldown makes no HTTP request, logs the configuration
    error, and still moves [last_sent] from 0 to 1700000003. *)
Lemma unset_webhook_still_stamps :
  match loop_body cfg_no_hook main_init w_near with
  | Done st' w' =>
      webhook_unset cfg_no_hook = true /\
      new_events w_near w' =
        [EvLog INFO (TriggerSend (dist_cm_of (1 # 5)) 30);
         EvSendDiscord (dist_cm_of (1 # 5)) None;
         EvLog ERROR NoWebhook;
         EvSleep (1 # 4)] /\
      count is_post (new_events w_near w') = O /\
      last_sent main_init = 0 /\
      last_sent st' = 1700000003 /\
      ~ last_sent st' == last_sent main_init
  | _ => False
  end.
Proof.
  vm_compute. repeat split. intros H. discriminate H.
Qed.

(** C7 (amended). Before the first send [last_sent] is 0, so the remaining
    cooldown is [max(0, cooldown - now)]: it is 0 exactly when the cooldown
    does not exceed the clock reading. Under that condition the first
    in-range sample takes the sending branch (the iteration starts with the
    "TRIGGER .. sending" line, and calls [send_discord] once and sets
    [last_sent] if the capture returns). When the clock reading is below
    the cooldown the first in-range sample takes the cooldown branch
    instead: the iteration logs "TRIGGER .. on cooldown" with
    [cooldown - now] left, sleeps, and sends nothing. [last_sent] stays 0
    as long as no iteration has called [send_discord]. *)
Theorem first_send_needs_cooldown_le_now (cfg : Config) (b : bool) (w : World) :
  (cooldown_left_at cfg (clock w (clock_reads w)) 0 == 0 <->
   COOLDOWN_SECONDS cfg <= clock w (clock_reads w)) /\
  (dist_cm_of (sensor w (sensor_reads w)) <= DISTANCE_THRESHOLD_CM cfg ->
   COOLDOWN_SECONDS cfg <= clock w (clock_reads w) ->
   exists evs,
     new_events w (world_of (loop_body cfg {| last_sent := 0; was_in_range := b |} w)) =
       EvLog INFO (TriggerSend (dist_cm_of (sensor w (sensor_reads w)))
                               (COOLDOWN_SECONDS cfg)) :: evs /\
     (capture_returns cfg (trigger_world cfg w) ->
      exists w',
        loop_body cfg {| last_sent := 0; was_in_range := b |} w =
          Done {| last_sent := clock w (S (clock_reads w));
                  was_in_range := true |} w' /\
        count is_send evs = 1%nat)) /\
  (dist_cm_of (sensor w (sensor_reads w)) <= DISTANCE_THRESHOLD_CM cfg ->
   clock w (clock_reads w) < COOLDOWN_SECONDS cfg ->
   cooldown_left_at cfg (clock w (clock_reads w)) 0 ==
     COOLDOWN_SECONDS cfg - clock w (clock_reads w) /\
   exists w',
     loop_body cfg {| last_sent := 0; was_in_range := b |} w =
       Done {| last_sent := 0; was_in_range := true |} w' /\
     new_events w w' =
       [EvLog INFO (TriggerCooldown
                      (dist_cm_of (sensor w (sensor_reads w)))
                      (cooldown_left_at cfg (clock w (clock_reads w)) 0));
        EvSleep (SAMPLE_INTERVAL cfg)]) /\
  (forall n st' w',
     main_loop cfg n main_init w = Done st' w' ->
     count is_send (new_events w w') = O -> last_sent st' = 0).
Proof.
  assert (Hz : cooldown_left_at cfg (clock w (clock_reads w)) 0 == 0 <->
               COOLDOWN_SECONDS cfg <= clock w (clock_reads w)).
  { unfold cooldown_left_at. rewrite py_max_zero_iff. split; intros; lra. }
  split; [exact Hz|]. split; [|split].
  - intros H1 H2. apply Qle_bool_iff in H1.
    apply Hz in H2. apply py_max_le_zero_iff in H2.
    destruct (loop_body_send_summary cfg {| last_sent := 0; was_in_range := b |}
                w H1 H2)
      as (evs & Ev & _ & _ & _ &
          [(w1 & E & Ph & T & C & _)|(w' & body & E & _ & _ & Cs & _)]).
    + exists evs. split; [exact (new_events_app _ _ _ Ev)|].
      intros [H3|(b0 & w0 & H3)]; congruence.
    + exists evs. split; [exact (new_events_app _ _ _ Ev)|]. intros _.
      exists w'. split; [exact E | exact Cs].
  - intros H1 H2. apply Qle_bool_iff in H1.
    assert (P : 0 < COOLDOWN_SECONDS cfg - (clock w (clock_reads w) - 0)) by lra.
    pose proof (py_max_pos _ P) as H3.
    split.
    { unfold cooldown_left_at, py_max.
      assert (E : Qle_bool (COOLDOWN_SECONDS cfg - (clock w (clock_reads w) - 0)) 0
                  = false) by (apply Qle_bool_false_iff; exact P).
      rewrite E. lra. }
    eexists. split.
    { apply (loop_body_cool cfg {| last_sent := 0; was_in_range := b |} w H1).
      exact H3. }
    apply new_events_app. simpl. rewrite <- app_assoc. reflexivity.
  - intros n st' w' E Z.
    destruct (main_loop_run cfg n main_init w) as (evs & k & T & _ & _ & _ & O).
    rewrite E in T, O. simpl in T. rewrite (new_events_app _ _ _ T) in Z.
    destruct O as [_ O]. exact (O Z).
Qed.

Lemma first_send_needs_cooldown_le_now_witness :
  (exists evs,
     new_events w_near
       (world_of (loop_body cfg_text {| last_sent := 0; was_in_range := false |}
                    w_near)) =
       EvLog INFO (TriggerSend (dist_cm_of (sensor w_near (sensor_reads w_near)))
                               (COOLDOWN_SECONDS cfg_text)) :: evs /\
     (capture_returns cfg_text (trigger_world cfg_text w_near) ->
      exists w',
        loop_body cfg_text {| last_sent := 0; was_in_range := false |} w_near =
          Done {| last_sent := clock w_near (S (clock_reads w_near));
                  was_in_range := true |} w' /\
        count is_send evs = 1%nat)) /\
  (cooldown_left_at cfg_text (clock w_early (clock_reads w_early)) 0 ==
     COOLDOWN_SECONDS cfg_text - clock w_early (clock_reads w_early) /\
   exists w',
     loop_body cfg_text {| last_sent := 0; was_in_range := false |} w_early =
       Done {| last_sent := 0; was_in_range := true |} w' /\
     new_events w_early w' =
       [EvLog INFO (TriggerCooldown
                      (dist_cm_of (sensor w_early (sensor_reads w_early)))
                      (cooldown_left_at cfg_text
                         (clock w_early (clock_reads w_early)) 0));
        EvSleep (SAMPLE_INTERVAL cfg_text)]).
Proof.
  split.
  - apply (proj1 (proj2 (first_send_needs_cooldown_le_now cfg_text false w_near))).
    + q_decide.
    + q_decide.
  - apply (proj1 (proj2 (proj2
             (first_send_needs_cooldown_le_now cfg_text false w_early)))).
    + q_decide.
    + q_decide.
Defined.

(** C7 as stated fails: with the clock at 10 (positive) and the default
    cooldown of 30 s, the remaining cooldown before any send is 20, and the
    first in-range sample takes the cooldown branch. *)
Lemma early_clock_first_sample_not_sent :
  match loop_body cfg_text main_init w_early with
  | Done st' w' =>
      0 < clock w_early (clock_reads w_early) /\
      dist_cm_of (sensor w_early (sensor_reads w_early))
        <= DISTANCE_THRESHOLD_CM cfg_text /\
      cooldown_left_at cfg_text (clock w_early (clock_reads w_early))
                       (last_sent main_init) = 20 /\
      ~ cooldown_left_at cfg_text (clock w_early (clock_reads w_early))
                         (last_sent main_init) == 0 /\
      new_events w_early w' =
        [EvLog INFO (TriggerCooldown (dist_cm_of (1 # 5)) 20); EvSleep (1 # 4)] /\
      count is_send (new_events w_early w') = O
  | _ => False
  end.
Proof.
  vm_compute. repeat split; intros H; discriminate H.
Qed.

(* ===================================================================== *)
(** ** Claims about blocking and raising *)
(* ===================================================================== *)

(** In the sending branch with photos enabled, a capture that never returns
    leaves the iteration blocked. *)
Lemma loop_body_blocked_by_capture cfg st w w1 :
  Qle_bool (dist_cm_of (sensor w (sensor_reads w))) (DISTANCE_THRESHOLD_CM cfg) = true ->
  Qle_bool (cooldown_left_at cfg (clock w (clock_reads w)) (last_sent st)) 0 = true ->
  SEND_PHOTO cfg = true ->
  capture_image PHOTO_PATH (trigger_world cfg w) = Blocked w1 ->
  loop_body cfg st w = Blocked w1.
Proof.
  intros H1 H2 Ph E. unfold loop_body. unfold_m. cbv beta zeta.
  rewrite H1.
  change (clock (tick_sensor w) (clock_reads (tick_sensor w)))
    with (clock w (clock_reads w)).
  rewrite H2, Ph. fold (trigger_world cfg w). rewrite E. reflexivity.
Qed.

(** C8 (amended). Every process that [capture_image] starts is started
    without a timeout. The call returns when every started process exits;
    when the backend reached by the chain is installed and its process
    never exits, [capture_image] never returns, and neither does the loop
    iteration that requested the photo. *)
Theorem capture_runs_without_timeout (path : string) (w : World) :
  (forall cmd t,
      In (EvRun cmd t) (new_events w (world_of (capture_image path w))) ->
      t = None) /\
  (tools_terminate w -> exists b w', capture_image path w = Done b w') /\
  (forall pre tool cmd post w1 p,
      backends path = pre ++ (tool, cmd) :: post ->
      skips pre (after_cleanup path w) w1 ->
      which w1 tool = true ->
      spawn w1 cmd (fs w1) = Some p ->
      duration p = None ->
      capture_image path w = Blocked (emit (EvRun cmd None) w1)) /\
  (forall cfg st w0 w1,
      dist_cm_of (sensor w0 (sensor_reads w0)) <= DISTANCE_THRESHOLD_CM cfg ->
      cooldown_left_at cfg (clock w0 (clock_reads w0)) (last_sent st) == 0 ->
      SEND_PHOTO cfg = true ->
      capture_image PHOTO_PATH (trigger_world cfg w0) = Blocked w1 ->
      loop_body cfg st w0 = Blocked w1).
Proof.
  destruct (capture_image_outcome path w) as [(evs & Q & F) O].
  split; [|split; [|split]].
  - intros cmd t H. rewrite (new_events_app _ _ _ (q_trace _ _ _ Q)) in H.
    rewrite Forall_forall in F.
    assert (H' : EvRun cmd t ∈ evs) by (apply list_elem_of_In; exact H).
    specialize (F _ H'). destruct t; [contradiction | reflexivity].
  - intros T. destruct O as [O|[_ O]]; [exact O | contradiction].
  - intros pre tool cmd post w1 p B Sk Wh Sp Du.
    rewrite capture_image_chain, B, (chain_skips pre _ path _ w1 Sk), chain_cons.
    assert (R : which_and_run tool cmd w1 = Blocked (emit (EvRun cmd None) w1)).
    { apply which_and_run_blocked. split; [exact Wh|]. exists p. auto. }
    rewrite R. reflexivity.
  - intros cfg st w0 w1 H1 H2 Ph E.
    apply Qle_bool_iff in H1. apply py_max_le_zero_iff in H2.
    exact (loop_body_blocked_by_capture cfg st w0 w1 H1 H2 Ph E).
Qed.

Lemma capture_runs_without_timeout_witness :
  capture_image PHOTO_PATH w_hung_cam =
  Blocked (emit (EvRun (rpicam_cmd PHOTO_PATH) None)
                (after_cleanup PHOTO_PATH w_hung_cam)).
Proof.
  apply (proj1 (proj2 (proj2
           (capture_runs_without_timeout PHOTO_PATH w_hung_cam)))
           [] "rpicam-still" (rpicam_cmd PHOTO_PATH)
           [("libcamera-still", libcamera_cmd PHOTO_PATH);
            ("fswebcam", fswebcam_cmd PHOTO_PATH)]
           (after_cleanup PHOTO_PATH w_hung_cam)
           {| duration := None; exit_code := 0;
              fs_after := fs (after_cleanup PHOTO_PATH w_hung_cam) |}).
  - reflexivity.
  - reflexivity.
  - reflexivity.
  - reflexivity.
  - reflexivity.
Defined.

(** C8 as stated fails: with photos enabled and an rpicam-still that never
    exits, the in-range iteration starts rpicam-still without a timeout and
    never returns; [send_discord] is never called. *)
Lemma hung_camera_blocks_the_loop :
  match loop_body cfg_photo main_init w_hung_cam with
  | Blocked w' =>
      List.filter is_run (new_events w_hung_cam w') =
        [EvRun (rpicam_cmd PHOTO_PATH) None] /\
      List.last (new_events w_hung_cam w') (EvSleep 0) =
        EvRun (rpicam_cmd PHOTO_PATH) None /\
      count is_send (new_events w_hung_cam w') = O
  | _ => False
  end.
Proof. vm_compute. repeat split. Qed.

(** C9. [send_discord] returns normally for every distance, image path,
    configuration and behaviour of the endpoint, and it changes no file.
    With no webhook it logs the configuration error. With a photo that
    cannot be opened it logs the exception and sends nothing. Otherwise
    it sends one request, never a second one, and logs the outcome:
    success on a 2xx answer, else the status and the first 200 characters
    of the body, or the exception that [requests.post] raised. A loop
    iteration never raises either, and an iteration that dispatches keeps
    the locals it set, whatever the endpoint did: [last_sent] is the clock
    reading taken after the call and [was_in_range] is true. *)
Theorem send_discord_never_raises (cfg : Config) (d : Q)
    (image_path : option string) (w : World) :
  (exists w',
      send_discord cfg d image_path w = Done tt w' /\
      fs w' = fs w /\
      new_events w w' =
        EvSendDiscord d image_path ::
        (if webhook_unset cfg then [EvLog ERROR NoWebhook]
         else if open_denied image_path w
         then [EvLog ERROR (DiscordError (OSError "PermissionError"))]
         else
           EvPost (request_for cfg d image_path (fs w)) ::
           match endpoint w (posts w) (request_for cfg d image_path (fs w)) with
           | Response c t =>
               if ((200 <=? c) && (c <? 300))%Z
               then [EvLog INFO DiscordSent]
               else [EvLog WARNING
                       (DiscordFailed c (String.substring 0 200 t))]
           | PostRaises e => [EvLog ERROR (DiscordError e)]
           end) /\
      (count is_post (new_events w w') <= 1)%nat) /\
  (forall st e w1, loop_body cfg st w <> Raised e w1) /\
  (forall st,
      dist_cm_of (sensor w (sensor_reads w)) <= DISTANCE_THRESHOLD_CM cfg ->
      cooldown_left_at cfg (clock w (clock_reads w)) (last_sent st) == 0 ->
      capture_returns cfg (trigger_world cfg w) ->
      exists w',
        loop_body cfg st w =
          Done {| last_sent := clock w (S (clock_reads w));
                  was_in_range := true |} w').
Proof.
  split; [|split].
  - destruct (send_discord_done cfg d image_path w) as (w' & E & Q).
    exists w'. split; [exact E|]. split.
    { pose proof (send_discord_keeps_files cfg d image_path w) as K.
      rewrite E in K. exact K. }
    rewrite (new_events_app _ _ _ (q_trace _ _ _ Q)).
    split.
    { unfold discord_events, outcome_log.
      destruct (webhook_unset cfg); [reflexivity|].
      destruct (open_denied image_path w); [reflexivity|].
      destruct (endpoint w (posts w) (request_for cfg d image_path (fs w)))
        as [c t|e]; [destruct ((200 <=? c) && (c <? 300))%Z|]; reflexivity. }
    destruct (discord_events_counts cfg d image_path w) as (_ & _ & _ & _ & Cp).
    change (count is_post (EvSendDiscord d image_path ::
                           discord_events cfg d image_path w))
      with (count is_post (discord_events cfg d image_path w)).
    rewrite Cp. destruct (webhook_unset cfg); [lia|].
    destruct (open_denied image_path w); lia.
  - intros st e w1 E.
    destruct (loop_body_tick cfg st w) as (evs & _ & _ & _ & _ & O).
    rewrite E in O. exact O.
  - intros st H1 H2 H3.
    apply Qle_bool_iff in H1. apply py_max_le_zero_iff in H2.
    destruct (loop_body_send_summary cfg st w H1 H2)
      as (evs & _ & _ & _ & _ &
          [(w1 & E & Ph & _ & C & _)|(w' & body & E & _)]).
    + exfalso. destruct H3 as [H3|(b & w0 & H3)]; congruence.
    + exists w'. exact E.
Qed.

Lemma send_discord_never_raises_witness :
  exists w',
    loop_body cfg_text main_init w_near_timeout =
      Done {| last_sent := clock w_near_timeout (S (clock_reads w_near_timeout));
              was_in_range := true |} w'.
Proof.
  apply (proj2 (proj2 (send_discord_never_raises cfg_text 0 None w_near_timeout))
           main_init).
  - q_decide.
  - q_decide.
  - left. reflexivity.
Defined.

(** A request that times out: the exception is logged, the iteration goes
    on to stamp [last_sent] and to sleep. *)
Example dispatch_timeout_is_logged :
  match loop_body cfg_text main_init w_near_timeout with
  | Done st' w' =>
      new_events w_near_timeout w' =
        [EvLog INFO (TriggerSend (dist_cm_of (1 # 5)) 30);
         EvSendDiscord (dist_cm_of (1 # 5)) None;
         EvPost (JsonPost demo_url (dist_cm_of (1 # 5)) 15);
         EvLog ERROR (DiscordError (RequestException "ReadTimeout"));
         EvSleep (1 # 4)] /\
      last_sent st' = 1700000003 /\ was_in_range st' = true
  | _ => False
  end.
Proof. vm_compute. repeat split. Qed.

(* ===================================================================== *)
(** ** Claim about the attachment *)
(* ===================================================================== *)

Lemma is_regular_true_iff (f : gmap string FileKind) (p : string) :
  is_regular f p = true <-> p <> "" /\ f !! p = Some RegularFile.
Proof.
  unfold is_regular. destruct (String.eqb_spec p "") as [->|N].
  - split; [discriminate | intros [N _]; contradiction].
  - destruct (f !! p) as [[|]|]; split; try discriminate; auto.
    all: intros [_ H]; discriminate H.
Qed.

(** C10 (amended). With a webhook configured, [send_discord] sends the
    multipart request carrying the image exactly when [image_path] is a
    path at which a regular file exists at that moment and that file can
    be opened. When the regular file exists and cannot be opened, no
    request is sent at all, neither multipart nor JSON: the exception is
    logged. In every other case ([None], the empty path, or a path with
    no regular file) the text-only JSON request is sent. *)
Theorem image_attached_iff_file_opens (cfg : Config) (d : Q)
    (image_path : option string) (w : World) :
  webhook_unset cfg = false ->
  exists w',
    send_discord cfg d image_path w = Done tt w' /\
    ((exists p, image_path = Some p /\ p <> "" /\
                fs w !! p = Some RegularFile /\ can_open w p = true /\
                List.filter is_post (new_events w w') =
                  [EvPost (MultipartPost (WEBHOOK_URL cfg) d p 15)]) \/
     (exists p, image_path = Some p /\ p <> "" /\
                fs w !! p = Some RegularFile /\ can_open w p = false /\
                new_events w w' =
                  [EvSendDiscord d image_path;
                   EvLog ERROR (DiscordError (OSError "PermissionError"))]) \/
     ((forall p, image_path = Some p ->
                 ~ (p <> "" /\ fs w !! p = Some RegularFile)) /\
      List.filter is_post (new_events w w') =
        [EvPost (JsonPost (WEBHOOK_URL cfg) d 15)])).
Proof.
  intros U.
  destruct (send_discord_done cfg d image_path w) as (w' & E & Q).
  exists w'. split; [exact E|].
  rewrite (new_events_app _ _ _ (q_trace _ _ _ Q)).
  assert (P : open_denied image_path w = false ->
              List.filter is_post (EvSendDiscord d image_path ::
                                   discord_events cfg d image_path w) =
              [EvPost (request_for cfg d image_path (fs w))]).
  { intros D. unfold discord_events, outcome_log. rewrite U, D.
    destruct (endpoint w (posts w) (request_for cfg d image_path (fs w)))
      as [c t|e]; [destruct ((200 <=? c) && (c <? 300))%Z|]; reflexivity. }
  destruct image_path as [p|].
  - destruct (is_regular (fs w) p) eqn:R.
    + pose proof R as R'. apply is_regular_true_iff in R' as [N L].
      destruct (can_open w p) eqn:C.
      * left. exists p. repeat (split; [auto; fail|]).
        rewrite P by (unfold open_denied; rewrite R, C; reflexivity).
        unfold request_for. rewrite R. reflexivity.
      * right. left. exists p. repeat (split; [auto; fail|]).
        unfold discord_events, open_denied. rewrite U, R, C. reflexivity.
    + right. right. split.
      * intros p' Ep H. inversion Ep; subst p'.
        apply is_regular_true_iff in H. congruence.
      * rewrite P by (unfold open_denied; rewrite R; reflexivity).
        unfold request_for. rewrite R. reflexivity.
  - right. right. split; [intros p Ep; discriminate Ep|].
    rewrite P by reflexivity. reflexivity.
Qed.

Lemma image_attached_iff_file_opens_witness :
  exists w',
    send_discord cfg_text 30 (Some PHOTO_PATH) w_photo = Done tt w' /\
    ((exists p, Some PHOTO_PATH = Some p /\ p <> "" /\
                fs w_photo !! p = Some RegularFile /\ can_open w_photo p = true /\
                List.filter is_post (new_events w_photo w') =
                  [EvPost (MultipartPost (WEBHOOK_URL cfg_text) 30 p 15)]) \/
     (exists p, Some PHOTO_PATH = Some p /\ p <> "" /\
                fs w_photo !! p = Some RegularFile /\ can_open w_photo p = false /\
                new_events w_photo w' =
                  [EvSendDiscord 30 (Some PHOTO_PATH);
                   EvLog ERROR (DiscordError (OSError "PermissionError"))]) \/
     ((forall p, Some PHOTO_PATH = Some p ->
                 ~ (p <> "" /\ fs w_photo !! p = Some RegularFile)) /\
      List.filter is_post (new_events w_photo w') =
        [EvPost (JsonPost (WEBHOOK_URL cfg_text) 30 15)])).
Proof.
  apply (image_attached_iff_file_opens cfg_text 30 (Some PHOTO_PATH) w_photo).
  reflexivity.
Defined.

(** C10 as stated fails: the webhook is configured and a regular file
    exists at the image path, but it cannot be opened; [send_discord]
    sends no request, neither the multipart one nor the JSON one, and logs
    the exception. *)
Lemma unreadable_photo_sends_nothing :
  webhook_unset cfg_text = false /\
  fs w_locked_photo !! PHOTO_PATH = Some RegularFile /\
  match send_discord cfg_text 30 (Some PHOTO_PATH) w_locked_photo with
  | Done _ w' =>
      new_events w_locked_photo w' =
        [EvSendDiscord 30 (Some PHOTO_PATH);
         EvLog ERROR (DiscordError (OSError "PermissionError"))] /\
      List.filter is_post (new_events w_locked_photo w') = [] /\
      posts w' = posts w_locked_photo
  | _ => False
  end.
Proof. vm_compute. repeat split. Qed.

(** The same file, readable: it is attached. *)
Example readable_photo_is_attached :
  match send_discord cfg_text 30 (Some PHOTO_PATH) w_photo with
  | Done _ w' =>
      new_events w_photo w' =
        [EvSendDiscord 30 (Some PHOTO_PATH);
         EvPost (MultipartPost demo_url 30 PHOTO_PATH 15);
         EvLog INFO DiscordSent]
  | _ => False
  end.
Proof. vm_compute. repeat split. Qed.

(** A photo on disk is attached; a path with nothing behind it is not. *)
Example photo_on_disk_is_attached :
  request_for cfg_text 30 (Some PHOTO_PATH) {[ PHOTO_PATH := RegularFile ]} =
    MultipartPost demo_url 30 PHOTO_PATH 15 /\
  request_for cfg_text 30 (Some PHOTO_PATH) ∅ = JsonPost demo_url 30 15 /\
  request_for cfg_text 30 (Some PHOTO_PATH) {[ PHOTO_PATH := Directory ]} =
    JsonPost demo_url 30 15.
Proof. repeat split; vm_compute; reflexivity. Qed.

(* ===================================================================== *)
(** ** More on the camera helpers *)
(* ===================================================================== *)

(** X1. [_run_quiet] never raises. It returns [True] exactly when the
    process starts, exits, and exits with code 0; it returns [False] when
    the program cannot be started or exits with another code; it never
    returns when the process never exits. *)
Theorem run_quiet_reports_clean_exit (cmd : list string) (w : World) :
  (forall e w', _run_quiet cmd w <> Raised e w') /\
  (forall w', _run_quiet cmd w = Done true w' <->
     exists p d, spawn w cmd (fs w) = Some p /\ duration p = Some d /\
                 exit_code p = 0%Z /\
                 w' = set_fs (fs_after p) (emit (EvRun cmd None) w)) /\
  (forall w', _run_quiet cmd w = Done false w' <->
     (spawn w cmd (fs w) = None /\ w' = emit (EvRun cmd None) w) \/
     (exists p d, spawn w cmd (fs w) = Some p /\ duration p = Some d /\
                  exit_code p <> 0%Z /\
                  w' = set_fs (fs_after p) (emit (EvRun cmd None) w))) /\
  (forall w', _run_quiet cmd w = Blocked w' <->
     exists p, spawn w cmd (fs w) = Some p /\ duration p = None /\
               w' = emit (EvRun cmd None) w).
Proof.
  unfold _run_quiet, subprocess_run. unfold_m.
  destruct (spawn w cmd (fs w)) as [p|] eqn:Sp; simpl.
  2:{ split; [discriminate|]. split; [|split].
      - intros w'. split; [discriminate | intros (p & d & ? & _); discriminate].
      - intros w'. split.
        + intros H. inversion H. left. auto.
        + intros [[_ ->]|(p & d & ? & _)]; [reflexivity | discriminate].
      - intros w'. split; [discriminate | intros (p & ? & _); discriminate]. }
  destruct (duration p) as [d|] eqn:Du.
  2:{ split; [discriminate|]. split; [|split].
      - intros w'. split; [discriminate|].
        intros (p' & d & E & ? & _). inversion E; subst. congruence.
      - intros w'. split; [discriminate|].
        intros [[? _]|(p' & d & E & ? & _)]; [discriminate|].
        inversion E; subst. congruence.
      - intros w'. split.
        + intros H. inversion H. exists p. auto.
        + intros (p' & E & _ & ->). reflexivity. }
  destruct (Z.eqb_spec (exit_code p) 0) as [Ex|Ex]; simpl.
  - split; [discriminate|]. split; [|split].
    + intros w'. split.
      * intros H. inversion H. exists p, d. auto.
      * intros (p' & d' & E & _ & _ & ->). inversion E; subst. reflexivity.
    + intros w'. split; [discriminate|].
      intros [[? _]|(p' & d' & E & _ & Ex' & _)]; [discriminate|].
      inversion E; subst. contradiction.
    + intros w'. split; [discriminate|].
      intros (p' & E & ? & _). inversion E; subst. congruence.
  - split; [discriminate|]. split; [|split].
    + intros w'. split; [discriminate|].
      intros (p' & d' & E & _ & Ex' & _). inversion E; subst. contradiction.
    + intros w'. split.
      * intros H. inversion H. right. exists p, d. auto.
      * intros [[? _]|(p' & d' & E & _ & _ & ->)]; [discriminate|].
        inversion E; subst. reflexivity.
    + intros w'. split; [discriminate|].
      intros (p' & E & ? & _). inversion E; subst. congruence.
Qed.

(** X2. [capture_image] never raises, whatever is on disk and whatever the
    tools do. All it does is remove the stale file and start processes: it
    logs nothing, sends nothing, and leaves the clock, the sensor and the
    tools as they were. *)
Theorem capture_image_never_raises (path : string) (w : World) :
  (forall e w', capture_image path w <> Raised e w') /\
  exists evs,
    quiet w (world_of (capture_image path w)) evs /\
    Forall capture_event evs /\
    count is_send evs = O /\ count is_post evs = O /\ count is_clear evs = O.
Proof.
  destruct (capture_image_outcome path w) as [(evs & Q & F) O]. split.
  - intros e w' E. destruct O as [(b & w2 & O)|[(w2 & O) _]]; congruence.
  - exists evs. split; [exact Q|]. split; [exact F|].
    exact (capture_event_counts evs F).
Qed.

(** X3. When [capture_image] returns [True], a regular file is at the
    output path at that moment. *)
Theorem capture_success_means_file (path : string) (w w' : World) :
  capture_image path w = Done true w' ->
  path <> "" /\ fs w' !! path = Some RegularFile.
Proof.
  intros H. rewrite capture_image_chain in H.
  apply is_regular_true_iff.
  destruct (chain_done_inv path (backends path) _ true w' H)
    as [(pre & tool & cmd & post & w1 & _ & _ & _ & E)|[_ E]].
  - symmetry. exact E.
  - discriminate E.
Qed.

Lemma capture_success_means_file_witness :
  exists w',
    capture_image PHOTO_PATH w_good_cam = Done true w' /\
    PHOTO_PATH <> "" /\ fs w' !! PHOTO_PATH = Some RegularFile.
Proof.
  assert (K : match capture_image PHOTO_PATH w_good_cam with
              | Done true _ => True
              | _ => False
              end) by (vm_compute; exact I).
  destruct (capture_image PHOTO_PATH w_good_cam) as [[|] w'|e w'|w'] eqn:E;
    try contradiction.
  exists w'. split; [reflexivity|].
  exact (capture_success_means_file PHOTO_PATH w_good_cam w' E).
Defined.

Lemma after_cleanup_not_regular path w :
  can_remove w path = true ->
  is_regular (fs (after_cleanup path w)) path = false.
Proof.
  intros C. rewrite fs_after_cleanup. unfold cleaned. rewrite C, andb_true_r.
  destruct (is_regular (fs w) path) eqn:R; [|exact R].
  unfold is_regular. rewrite lookup_delete_eq.
  destruct (String.eqb path ""); reflexivity.
Qed.

Lemma which_and_run_keeps_entry path tool cmd w b w' :
  (forall c f p, spawn w c f = Some p -> fs_after p !! path = f !! path) ->
  which_and_run tool cmd w = Done b w' ->
  fs w' !! path = fs w !! path.
Proof.
  intros H E. destruct b.
  - apply which_and_run_true in E as (_ & p & d & Sp & _ & _ & ->).
    exact (H _ _ _ Sp).
  - apply which_and_run_false in E
      as [[_ ->]|[(_ & _ & ->)|(_ & p & d & Sp & _ & _ & ->)]].
    + reflexivity.
    + reflexivity.
    + exact (H _ _ _ Sp).
Qed.

Lemma chain_without_writer path bs : forall w0 b w',
  (forall c f p, spawn w0 c f = Some p -> fs_after p !! path = f !! path) ->
  is_regular (fs w0) path = false ->
  chain bs path w0 = Done b w' -> b = false.
Proof.
  induction bs as [|[tool cmd] rest IH]; intros w0 b w' H R E.
  - inversion E. reflexivity.
  - rewrite chain_cons in E.
    pose proof (which_and_run_step tool cmd w0) as (evs & Q & _).
    destruct (which_and_run tool cmd w0) as [b1 w1|e w1|w1] eqn:E1;
      try discriminate.
    pose proof (which_and_run_keeps_entry path tool cmd w0 b1 w1 H E1) as K.
    assert (R1 : is_regular (fs w1) path = false).
    { unfold is_regular in *. rewrite K. exact R. }
    simpl in Q. destruct b1.
    + inversion E; subst. exact R1.
    + apply (IH w1 b w'); [|exact R1 | exact E].
      intros c f p. rewrite (q_spawn _ _ _ Q). apply H.
Qed.

(** X4. [capture_image] does not report a photo of an earlier capture
    when the stale file can be removed: the file is removed first, so when
    no started process writes the output path, the result is never
    [True]. *)
Theorem stale_photo_never_reported (path : string) (w : World) :
  can_remove w path = true ->
  (forall c f p, spawn w c f = Some p -> fs_after p !! path = f !! path) ->
  forall b w', capture_image path w = Done b w' -> b = false.
Proof.
  intros C H b w' E. rewrite capture_image_chain in E.
  destruct (cleanup_step path w) as (evs & Q & _).
  apply (chain_without_writer path (backends path) (after_cleanup path w) b w').
  - intros c f p. rewrite (q_spawn _ _ _ Q). apply H.
  - apply after_cleanup_not_regular. exact C.
  - exact E.
Qed.

Lemma stale_photo_never_reported_witness :
  fs w_stale !! PHOTO_PATH = Some RegularFile /\
  forall b w', capture_image PHOTO_PATH w_stale = Done b w' -> b = false.
Proof.
  split; [vm_compute; reflexivity|].
  apply (stale_photo_never_reported PHOTO_PATH w_stale).
  - reflexivity.
  - intros c f p H. inversion H. reflexivity.
Defined.

(** With the stale photo on disk and tools that exit cleanly without
    writing, the capture fails after starting rpicam-still only. *)
Example stale_photo_is_removed :
  match capture_image PHOTO_PATH w_stale with
  | Done b w' =>
      b = false /\ fs w' !! PHOTO_PATH = None /\
      new_events w_stale w' =
        [EvCapture PHOTO_PATH; EvRemove PHOTO_PATH;
         EvRun (rpicam_cmd PHOTO_PATH) None]
  | _ => False
  end.
Proof. vm_compute. repeat split. Qed.

(** When the stale photo cannot be removed, the exception of [os.remove]
    is swallowed, the file stays, and a tool that exits cleanly without
    writing makes [capture_image] report the old photo. *)
Example stale_photo_reported_when_kept :
  match capture_image PHOTO_PATH (deny_remove w_stale) with
  | Done b w' =>
      b = true /\ fs w' !! PHOTO_PATH = Some RegularFile /\
      new_events (deny_remove w_stale) w' =
        [EvCapture PHOTO_PATH; EvRemove PHOTO_PATH;
         EvRun (rpicam_cmd PHOTO_PATH) None]
  | _ => False
  end.
Proof. vm_compute. repeat split. Qed.

Lemma filter_run_app xs ys :
  List.filter is_run (xs ++ ys) = List.filter is_run xs ++ List.filter is_run ys.
Proof. apply List.filter_app. Qed.

Lemma which_and_run_starts tool cmd w :
  exists evs,
    trace (world_of (which_and_run tool cmd w)) = trace w ++ evs /\
    List.filter is_run evs `sublist_of` [EvRun cmd None] /\
    count is_remove evs = O.
Proof.
  destruct (which_and_run tool cmd w) as [[|] w'|e w'|w'] eqn:E; simpl world_of.
  - apply which_and_run_true in E as (_ & p & d & _ & _ & _ & ->).
    exists [EvRun cmd None]. repeat split; reflexivity.
  - apply which_and_run_false in E
      as [[_ ->]|[(_ & _ & ->)|(_ & p & d & _ & _ & _ & ->)]].
    + exists []. rewrite app_nil_r. repeat split; try reflexivity.
      apply sublist_nil_l.
    + exists [EvRun cmd None]. repeat split; reflexivity.
    + exists [EvRun cmd None]. repeat split; reflexivity.
  - destruct (which_and_run_total tool cmd w) as [(b & w2 & H)|(w2 & H)];
      congruence.
  - apply which_and_run_blocked in E as (_ & p & _ & _ & ->).
    exists [EvRun cmd None]. repeat split; reflexivity.
Qed.

Lemma chain_starts path bs : forall w0,
  exists evs,
    trace (world_of (chain bs path w0)) = trace w0 ++ evs /\
    List.filter is_run evs `sublist_of` List.map start_of bs /\
    count is_remove evs = O.
Proof.
  induction bs as [|[tool cmd] rest IH]; intros w0.
  - exists []. simpl. rewrite app_nil_r. repeat split; reflexivity.
  - rewrite chain_cons.
    destruct (which_and_run_starts tool cmd w0) as (e1 & T1 & S1 & R1).
    destruct (which_and_run tool cmd w0) as [[|] w1|e w1|w1]; simpl world_of in *.
    + exists e1. split; [exact T1|]. split; [|exact R1].
      rewrite <- (app_nil_r (List.filter is_run e1)).
      change (List.map start_of ((tool, cmd) :: rest))
        with ([EvRun cmd None] ++ List.map start_of rest).
      apply sublist_app; [exact S1 | apply sublist_nil_l].
    + destruct (IH w1) as (e2 & T2 & S2 & R2).
      exists (e1 ++ e2). split; [rewrite T2, T1, app_assoc; reflexivity|].
      split.
      * rewrite filter_run_app.
        change (List.map start_of ((tool, cmd) :: rest))
          with ([EvRun cmd None] ++ List.map start_of rest).
        apply sublist_app; assumption.
      * rewrite count_app, R1, R2. reflexivity.
    + exists e1. split; [exact T1|]. split; [|exact R1].
      rewrite <- (app_nil_r (List.filter is_run e1)).
      change (List.map start_of ((tool, cmd) :: rest))
        with ([EvRun cmd None] ++ List.map start_of rest).
      apply sublist_app; [exact S1 | apply sublist_nil_l].
    + exists e1. split; [exact T1|]. split; [|exact R1].
      rewrite <- (app_nil_r (List.filter is_run e1)).
      change (List.map start_of ((tool, cmd) :: rest))
        with ([EvRun cmd None] ++ List.map start_of rest).
      apply sublist_app; [exact S1 | apply sublist_nil_l].
Qed.

(** X5. [capture_image] starts each tool at most once and in the order
    rpicam-still, libcamera-still, fswebcam: the process starts of a call
    are a sublist of these three commands. It calls [os.remove] at most
    once. *)
Theorem capture_starts_tools_in_order (path : string) (w : World) :
  List.filter is_run (new_events w (world_of (capture_image path w)))
    `sublist_of` [EvRun (rpicam_cmd path) None;
                  EvRun (libcamera_cmd path) None;
                  EvRun (fswebcam_cmd path) None] /\
  (count is_remove (new_events w (world_of (capture_image path w))) <= 1)%nat.
Proof.
  rewrite capture_image_chain.
  destruct (cleanup_starts path w) as (e1 & T1 & S1 & R1).
  destruct (chain_starts path (backends path) (after_cleanup path w))
    as (e2 & T2 & S2 & R2).
  assert (T : trace (world_of (chain (backends path) path (after_cleanup path w)))
              = trace w ++ (e1 ++ e2)).
  { rewrite T2, T1, app_assoc. reflexivity. }
  rewrite (new_events_app _ _ _ T). split.
  - rewrite filter_run_app, S1. exact S2.
  - rewrite count_app, R2. lia.
Qed.

Lemma skips_when_absent bs : forall w,
  (forall t, which w t = false) -> skips bs w w.
Proof.
  induction bs as [|[tool cmd] rest IH]; intros w H; simpl.
  - reflexivity.
  - exists w. split; [|apply IH; exact H].
    apply which_and_run_false. left. auto.
Qed.

(** X6. With none of the three tools installed, [capture_image] returns
    [False] without starting any process. *)
Theorem capture_without_tools (path : string) (w : World) :
  (forall t, which w t = false) ->
  capture_image path w = Done false (after_cleanup path w) /\
  List.filter is_run (new_events w (after_cleanup path w)) = [].
Proof.
  intros H.
  destruct (cleanup_step path w) as (evs & Q & _).
  destruct (cleanup_starts path w) as (e1 & T1 & S1 & _).
  split.
  - rewrite capture_image_chain.
    rewrite <- (app_nil_r (backends path)).
    rewrite (chain_skips (backends path) [] path _ (after_cleanup path w)).
    + reflexivity.
    + apply skips_when_absent. intros t.
      rewrite (q_which _ _ _ Q). apply H.
  - rewrite (new_events_app _ _ _ T1). exact S1.
Qed.

Lemma capture_without_tools_witness :
  capture_image PHOTO_PATH w_near = Done false (after_cleanup PHOTO_PATH w_near) /\
  List.filter is_run (new_events w_near (after_cleanup PHOTO_PATH w_near)) = [].
Proof.
  apply (capture_without_tools PHOTO_PATH w_near). intros t. reflexivity.
Defined.

(* ===================================================================== *)
(** ** More on the webhook dispatch *)
(* ===================================================================== *)

Lemma request_for_shape cfg d img f :
  request_url (request_for cfg d img f) = WEBHOOK_URL cfg /\
  request_timeout (request_for cfg d img f) = 15.
Proof.
  unfold request_for. destruct img as [p|]; [destruct (is_regular f p)|];
    split; reflexivity.
Qed.

(** X7. [send_discord] leaves the file system as it was (the photo it
    attached stays on disk), and every request it makes goes to the
    configured [WEBHOOK_URL] with the 15 s timeout. *)
Theorem send_discord_request_shape (cfg : Config) (d : Q)
    (image_path : option string) (w : World) :
  fs (world_of (send_discord cfg d image_path w)) = fs w /\
  forall r,
    In (EvPost r) (new_events w (world_of (send_discord cfg d image_path w))) ->
    request_url r = WEBHOOK_URL cfg /\ request_timeout r = 15.
Proof.
  split; [apply send_discord_keeps_files|].
  destruct (send_discord_done cfg d image_path w) as (w' & E & Q).
  rewrite E. simpl world_of.
  rewrite (new_events_app _ _ _ (q_trace _ _ _ Q)).
  unfold discord_events, outcome_log. intros r H.
  destruct (webhook_unset cfg).
  - simpl in H. destruct H as [H|[H|[]]]; discriminate H.
  - destruct (open_denied image_path w).
    { simpl in H. destruct H as [H|[H|[]]]; discriminate H. }
    destruct (endpoint w (posts w) (request_for cfg d image_path (fs w)))
      as [c t|e]; [destruct ((200 <=? c) && (c <? 300))%Z|];
      simpl in H; destruct H as [H|[H|[H|[]]]]; try discriminate H;
      inversion H; apply request_for_shape.
Qed.

Lemma prefix_iff (s1 s2 : string) :
  String.prefix s1 s2 = true <-> exists b, s2 = String.append s1 b.
Proof.
  revert s2. induction s1 as [|a s1 IH]; intros s2.
  - split; [intros _; exists s2; reflexivity|]. intros _. destruct s2; reflexivity.
  - destruct s2 as [|c s2]; simpl.
    + split; [discriminate | intros [b H]; discriminate H].
    + destruct (Ascii.ascii_dec a c) as [->|N].
      * rewrite IH. split; intros [b H]; exists b.
        -- rewrite H. reflexivity.
        -- inversion H. reflexivity.
      * split; [discriminate|]. intros [b H]. inversion H. congruence.
Qed.

(** [needle in hay]: the needle occurs as a contiguous part of the hay. *)
Lemma str_in_iff (needle hay : string) :
  needle <> "" ->
  str_in needle hay = true <->
  exists a b, hay = String.append a (String.append needle b).
Proof.
  intros N. unfold str_in. induction hay as [|c hay IH].
  - simpl. destruct needle as [|x needle]; [contradiction|].
    split; [discriminate|]. intros (a & b & H).
    destruct a; discriminate H.
  - cbn [String.index].
    destruct (String.prefix needle (String c hay)) eqn:P.
    + split; [intros _ | reflexivity].
      apply prefix_iff in P as [b P]. exists "", b. exact P.
    + destruct (String.index 0 needle hay) as [n|] eqn:I.
      * split; [intros _ | reflexivity].
        destruct (proj1 IH eq_refl) as (a & b & H).
        exists (String c a), b. rewrite H. reflexivity.
      * split; [discriminate|]. intros (a & b & H).
        destruct a as [|x a].
        -- simpl in H. assert (P' : String.prefix needle (String c hay) = true).
           { apply prefix_iff. exists b. exact H. }
           congruence.
        -- inversion H; subst.
           assert (K : true = true) by reflexivity.
           destruct IH as [_ IH]. discriminate IH. eauto.
Qed.

(** X8. The webhook counts as unset exactly when [WEBHOOK_URL] is empty
    or contains the placeholder text anywhere in it, so a URL that still
    embeds the placeholder is rejected as well. *)
Theorem webhook_unset_iff (cfg : Config) :
  webhook_unset cfg = true <->
  WEBHOOK_URL cfg = "" \/
  exists a b, WEBHOOK_URL cfg = String.append a (String.append PLACEHOLDER b).
Proof.
  unfold webhook_unset. rewrite orb_true_iff, String.eqb_eq.
  rewrite (str_in_iff PLACEHOLDER (WEBHOOK_URL cfg)); [reflexivity|].
  discriminate.
Qed.

(* ===================================================================== *)
(** ** More on the loop *)
(* ===================================================================== *)

(** An iteration inside the cooldown window: it completes, reads the clock
    once, and neither captures nor sends. *)
Lemma loop_body_in_window cfg st w :
  clock w (clock_reads w) < last_sent st + COOLDOWN_SECONDS cfg ->
  exists st' w' evs,
    loop_body cfg st w = Done st' w' /\
    trace w' = trace w ++ evs /\
    last_sent st' = last_sent st /\
    clock w' = clock w /\ clock_reads w' = S (clock_reads w) /\
    fs w' = fs w /\
    count is_send evs = O /\ count is_capture evs = O /\
    count is_post evs = O /\ count is_run evs = O.
Proof.
  intros H.
  assert (C : Qle_bool (cooldown_left_at cfg (clock w (clock_reads w))
                                         (last_sent st)) 0 = false).
  { unfold cooldown_left_at. apply py_max_pos. lra. }
  destruct (Qle_bool (dist_cm_of (sensor w (sensor_reads w)))
                     (DISTANCE_THRESHOLD_CM cfg)) eqn:F.
  - rewrite (loop_body_cool cfg st w F C).
    eexists _, _, [_; _]. split; [reflexivity|]. split.
    { simpl. rewrite <- app_assoc. reflexivity. }
    repeat split; reflexivity.
  - rewrite (loop_body_out cfg st w F).
    destruct (was_in_range st).
    + eexists _, _, [_; _]. split; [reflexivity|]. split.
      { simpl. rewrite <- app_assoc. reflexivity. }
      repeat split; reflexivity.
    + eexists _, _, [_]. split; [reflexivity|].
      repeat split; reflexivity.
Qed.

(** X9. While the clock reads less than [last_sent + COOLDOWN_SECONDS],
    the loop sends nothing, whatever the samples are: a run of iterations
    inside the window completes without any capture, process start, call of
    [send_discord] or HTTP request, and leaves [last_sent] and the file
    system as they were. *)
Theorem cooldown_window_is_silent (cfg : Config) (n : nat) (st : Locals)
    (w : World) :
  (forall i, (i < n)%nat ->
     clock w (clock_reads w + i)%nat < last_sent st + COOLDOWN_SECONDS cfg) ->
  exists st' w',
    main_loop cfg n st w = Done st' w' /\
    last_sent st' = last_sent st /\ fs w' = fs w /\
    count is_send (new_events w w') = O /\
    count is_capture (new_events w w') = O /\
    count is_post (new_events w w') = O /\
    count is_run (new_events w w') = O.
Proof.
  intros H.
  enough (G : exists st' w' evs,
             main_loop cfg n st w = Done st' w' /\ trace w' = trace w ++ evs /\
             last_sent st' = last_sent st /\ fs w' = fs w /\
             count is_send evs = O /\ count is_capture evs = O /\
             count is_post evs = O /\ count is_run evs = O).
  { destruct G as (st' & w' & evs & E & T & G).
    exists st', w'. rewrite (new_events_app _ _ _ T). auto. }
  revert st w H. induction n as [|n IH]; intros st w H.
  - exists st, w, []. simpl. rewrite app_nil_r. repeat split; reflexivity.
  - simpl main_loop. unfold mbind, M_bind, bind.
    destruct (loop_body_in_window cfg st w)
      as (st1 & w1 & e1 & E1 & T1 & L1 & K1 & R1 & F1 & A1 & B1 & C1 & D1).
    { specialize (H O). rewrite Nat.add_0_r in H. apply H. lia. }
    rewrite E1.
    destruct (IH st1 w1)
      as (st' & w' & e2 & E2 & T2 & L2 & F2 & A2 & B2 & C2 & D2).
    { intros i Hi. rewrite K1, R1, L1.
      replace (S (clock_reads w) + i)%nat with (clock_reads w + S i)%nat by lia.
      apply H. lia. }
    exists st', w', (e1 ++ e2). split; [exact E2|].
    split; [rewrite T2, T1, app_assoc; reflexivity|].
    split; [congruence|]. split; [congruence|].
    rewrite !count_app, A1, A2, B1, B2, C1, C2, D1, D2. auto.
Qed.

Lemma cooldown_window_is_silent_witness :
  exists st' w',
    main_loop cfg_text 3 recently_sent w_near = Done st' w' /\
    last_sent st' = last_sent recently_sent /\ fs w' = fs w_near /\
    count is_send (new_events w_near w') = O /\
    count is_capture (new_events w_near w') = O /\
    count is_post (new_events w_near w') = O /\
    count is_run (new_events w_near w') = O.
Proof.
  apply (cooldown_window_is_silent cfg_text 3 recently_sent w_near).
  intros i Hi.
  destruct i as [|[|[|i]]]; [q_decide | q_decide | q_decide | lia].
Defined.

Lemma loop_body_clock cfg st w : clock (world_of (loop_body cfg st w)) = clock w.
Proof.
  destruct (Qle_bool (dist_cm_of (sensor w (sensor_reads w)))
                     (DISTANCE_THRESHOLD_CM cfg)) eqn:F.
  - destruct (Qle_bool (cooldown_left_at cfg (clock w (clock_reads w))
                                         (last_sent st)) 0) eqn:C.
    + destruct (loop_body_send cfg st w F C)
        as [(w1 & cap & E & _ & _ & _ & Q & _)|(w1 & cap & img & w2 & E & Q & _ & _ & Q2)];
        rewrite E; simpl world_of.
      * rewrite (q_clock _ _ _ Q). reflexivity.
      * change (clock (emit (EvSleep (SAMPLE_INTERVAL cfg)) (tick_clock w2)))
          with (clock w2).
        rewrite (q_clock _ _ _ Q2), (q_clock _ _ _ Q). reflexivity.
    + rewrite (loop_body_cool cfg st w F C). reflexivity.
  - rewrite (loop_body_out cfg st w F). destruct (was_in_range st); reflexivity.
Qed.

Lemma main_loop_spacing cfg n : forall st w st' w',
  (forall k, clock w k <= clock w (S k)) ->
  main_loop cfg n st w = Done st' w' ->
  exists evs,
    trace w' = trace w ++ evs /\
    last_sent st + COOLDOWN_SECONDS cfg *
                   inject_Z (Z.of_nat (count is_send evs)) <= last_sent st'.
Proof.
  induction n as [|n IH]; intros st w st' w' Mono E.
  - inversion E; subst. exists []. rewrite app_nil_r. split; [reflexivity|].
    change (inject_Z (Z.of_nat (count is_send []))) with 0. lra.
  - simpl main_loop in E. unfold mbind, M_bind, bind in E.
    pose proof (loop_body_clock cfg st w) as K.
    destruct (loop_body_tick cfg st w) as (e1 & T1 & _ & _ & _ & O1).
    destruct (loop_body cfg st w) as [st1 w1|e w1|w1]; try discriminate.
    simpl world_of in *.
    destruct O1 as (_ & O1 & _).
    destruct (IH st1 w1 st' w') as (e2 & T2 & B2); [|exact E|].
    { intros k. rewrite K. apply Mono. }
    exists (e1 ++ e2). split; [rewrite T2, T1, app_assoc; reflexivity|].
    rewrite count_app, Nat2Z.inj_add, inject_Z_plus.
    destruct O1 as [(Cs & L1 & _ & C)|(Cs & L1 & _)]; rewrite Cs.
    + apply py_max_le_zero_iff in C. unfold cooldown_left_at in C.
      apply py_max_zero_iff in C.
      pose proof (Mono (clock_reads w)) as M. rewrite L1 in B2.
      change (inject_Z (Z.of_nat 1)) with 1. lra.
    + rewrite L1 in B2. change (inject_Z (Z.of_nat 0)) with 0. lra.
Qed.

(** X10. One alert per cooldown window: when the clock never goes back,
    over a completed run [last_sent] advances by at least
    [COOLDOWN_SECONDS] times the number of calls of [send_discord]. *)
Theorem alerts_spaced_by_cooldown (cfg : Config) (n : nat) (st st' : Locals)
    (w w' : World) :
  (forall k, clock w k <= clock w (S k)) ->
  main_loop cfg n st w = Done st' w' ->
  last_sent st + COOLDOWN_SECONDS cfg *
                 inject_Z (Z.of_nat (count is_send (new_events w w')))
    <= last_sent st'.
Proof.
  intros Mono E.
  destruct (main_loop_spacing cfg n st w st' w' Mono E) as (evs & T & B).
  rewrite (new_events_app _ _ _ T). exact B.
Qed.

Lemma alerts_spaced_by_cooldown_witness :
  exists st' w',
    main_loop cfg_text 4 main_init w_leaving = Done st' w' /\
    last_sent main_init + COOLDOWN_SECONDS cfg_text *
        inject_Z (Z.of_nat (count is_send (new_events w_leaving w')))
      <= last_sent st'.
Proof.
  assert (K : match main_loop cfg_text 4 main_init w_leaving with
              | Done _ _ => True
              | _ => False
              end) by (vm_compute; exact I).
  destruct (main_loop cfg_text 4 main_init w_leaving) as [st' w'|e w'|w'] eqn:E;
    try contradiction.
  exists st', w'. split; [reflexivity|].
  apply (alerts_spaced_by_cooldown cfg_text 4 main_init st' w_leaving w');
    [|exact E].
  intros k. destruct k as [|k]; q_decide.
Defined.

(** The sending branch once the image is decided: [send_discord], the
    second clock reading, the sleep. *)
Lemma loop_body_after_capture cfg st w img w1 :
  Qle_bool (dist_cm_of (sensor w (sensor_reads w))) (DISTANCE_THRESHOLD_CM cfg) = true ->
  Qle_bool (cooldown_left_at cfg (clock w (clock_reads w)) (last_sent st)) 0 = true ->
  (SEND_PHOTO cfg = false /\ img = None /\ w1 = trigger_world cfg w) \/
  (SEND_PHOTO cfg = true /\
   ((img = Some PHOTO_PATH /\
     capture_image PHOTO_PATH (trigger_world cfg w) = Done true w1) \/
    (img = None /\ exists w0,
       capture_image PHOTO_PATH (trigger_world cfg w) = Done false w0 /\
       w1 = emit (EvLog WARNING CameraFailed) w0))) ->
  exists w2,
    send_discord cfg (dist_cm_of (sensor w (sensor_reads w))) img w1 = Done tt w2 /\
    loop_body cfg st w =
      Done {| last_sent := clock w2 (clock_reads w2); was_in_range := true |}
           (emit (EvSleep (SAMPLE_INTERVAL cfg)) (tick_clock w2)).
Proof.
  intros H1 H2 Hcase.
  destruct (send_discord_done cfg (dist_cm_of (sensor w (sensor_reads w))) img w1)
    as (w2 & E & _).
  exists w2. split; [exact E|].
  unfold loop_body. unfold_m. cbv beta zeta. rewrite H1.
  change (clock (tick_sensor w) (clock_reads (tick_sensor w)))
    with (clock w (clock_reads w)).
  rewrite H2. fold (trigger_world cfg w).
  destruct Hcase as [(Ph & -> & ->)|(Ph & [(-> & C)|(-> & w0 & C & ->)])];
    rewrite Ph; rewrite ?C; cbv beta iota; rewrite E; reflexivity.
Qed.

Lemma discord_events_no_remove cfg d img w :
  count is_remove (discord_events cfg d img w) = O.
Proof.
  unfold discord_events, outcome_log.
  destruct (webhook_unset cfg); [reflexivity|].
  destruct (open_denied img w); [reflexivity|].
  destruct (endpoint w (posts w) (request_for cfg d img (fs w))) as [c t|e];
    [destruct ((200 <=? c) && (c <? 300))%Z|]; reflexivity.
Qed.

Lemma loop_body_no_photo cfg st w :
  SEND_PHOTO cfg = false ->
  exists st' w' evs,
    loop_body cfg st w = Done st' w' /\ trace w' = trace w ++ evs /\
    fs w' = fs w /\
    count is_capture evs = O /\ count is_run evs = O /\ count is_remove evs = O.
Proof.
  intros Ph.
  destruct (Qle_bool (dist_cm_of (sensor w (sensor_reads w)))
                     (DISTANCE_THRESHOLD_CM cfg)) eqn:F.
  - destruct (Qle_bool (cooldown_left_at cfg (clock w (clock_reads w))
                                         (last_sent st)) 0) eqn:C.
    + set (d := dist_cm_of (sensor w (sensor_reads w))).
      destruct (loop_body_after_capture cfg st w None (trigger_world cfg w) F C)
        as (w2 & E & L); [left; auto|].
      destruct (send_discord_done cfg d None (trigger_world cfg w))
        as (w2' & E' & Q).
      fold d in E. rewrite E in E'. inversion E'; subst w2'.
      pose proof (send_discord_keeps_files cfg d None (trigger_world cfg w)) as K.
      rewrite E in K. simpl world_of in K.
      destruct (discord_events_counts cfg d None (trigger_world cfg w))
        as (_ & _ & D3 & D4 & _).
      pose proof (discord_events_no_remove cfg d None (trigger_world cfg w)) as D5.
      rewrite L.
      exists {| last_sent := clock w2 (clock_reads w2); was_in_range := true |},
             (emit (EvSleep (SAMPLE_INTERVAL cfg)) (tick_clock w2)),
             ([EvLog INFO (TriggerSend d (COOLDOWN_SECONDS cfg))]
                ++ (EvSendDiscord d None
                      :: discord_events cfg d None (trigger_world cfg w))
                ++ [EvSleep (SAMPLE_INTERVAL cfg)]).
      split; [reflexivity|]. split.
      { simpl. rewrite (q_trace _ _ _ Q). unfold trigger_world. simpl.
        rewrite <- !app_assoc. reflexivity. }
      split; [exact K|].
      rewrite !count_app.
      change (count is_capture (EvSendDiscord d None ::
                                discord_events cfg d None (trigger_world cfg w)))
        with (count is_capture (discord_events cfg d None (trigger_world cfg w))).
      change (count is_run (EvSendDiscord d None ::
                            discord_events cfg d None (trigger_world cfg w)))
        with (count is_run (discord_events cfg d None (trigger_world cfg w))).
      change (count is_remove (EvSendDiscord d None ::
                               discord_events cfg d None (trigger_world cfg w)))
        with (count is_remove (discord_events cfg d None (trigger_world cfg w))).
      rewrite D3, D4, D5. repeat split; reflexivity.
    + rewrite (loop_body_cool cfg st w F C).
      eexists _, _, [_; _]. split; [reflexivity|]. split.
      { simpl. rewrite <- app_assoc. reflexivity. }
      repeat split; reflexivity.
  - rewrite (loop_body_out cfg st w F). destruct (was_in_range st).
    + eexists _, _, [_; _]. split; [reflexivity|]. split.
      { simpl. rewrite <- app_assoc. reflexivity. }
      repeat split; reflexivity.
    + eexists _, _, [_]. split; [reflexivity|]. repeat split; reflexivity.
Qed.

(** X11. With [SEND_PHOTO] off the loop never touches the camera: every
    run of iterations completes (no camera tool can block it), without a
    call of [capture_image], a process start or a file removal, and with
    the file system as it was. *)
Theorem photo_off_never_touches_camera (cfg : Config) (n : nat) (st : Locals)
    (w : World) :
  SEND_PHOTO cfg = false ->
  exists st' w',
    main_loop cfg n st w = Done st' w' /\ fs w' = fs w /\
    count is_capture (new_events w w') = O /\
    count is_run (new_events w w') = O /\
    count is_remove (new_events w w') = O.
Proof.
  intros Ph.
  enough (G : exists st' w' evs,
             main_loop cfg n st w = Done st' w' /\ trace w' = trace w ++ evs /\
             fs w' = fs w /\ count is_capture evs = O /\
             count is_run evs = O /\ count is_remove evs = O).
  { destruct G as (st' & w' & evs & E & T & G).
    exists st', w'. rewrite (new_events_app _ _ _ T). auto. }
  revert st w. induction n as [|n IH]; intros st w.
  - exists st, w, []. simpl. rewrite app_nil_r. repeat split; reflexivity.
  - simpl main_loop. unfold mbind, M_bind, bind.
    destruct (loop_body_no_photo cfg st w Ph)
      as (st1 & w1 & e1 & E1 & T1 & F1 & A1 & B1 & C1).
    rewrite E1.
    destruct (IH st1 w1) as (st' & w' & e2 & E2 & T2 & F2 & A2 & B2 & C2).
    exists st', w', (e1 ++ e2). split; [exact E2|].
    split; [rewrite T2, T1, app_assoc; reflexivity|].
    split; [congruence|].
    rewrite !count_app, A1, A2, B1, B2, C1, C2. auto.
Qed.

Lemma photo_off_never_touches_camera_witness :
  exists st' w',
    main_loop cfg_text 5 main_init w_hung_cam = Done st' w' /\
    fs w' = fs w_hung_cam /\
    count is_capture (new_events w_hung_cam w') = O /\
    count is_run (new_events w_hung_cam w') = O /\
    count is_remove (new_events w_hung_cam w') = O.
Proof.
  apply (photo_off_never_touches_camera cfg_text 5 main_init w_hung_cam).
  reflexivity.
Defined.

Lemma capture_events_no_post evs :
  Forall capture_event evs ->
  List.filter is_post evs = [] /\ count is_camera_warning evs = O.
Proof.
  induction 1 as [|e evs He _ [IH1 IH2]]; [split; reflexivity|].
  unfold count in *.
  destruct e as [l m| |c [t|]| | | |]; simpl in *; try contradiction; auto.
Qed.

Lemma discord_events_posts cfg d img w :
  webhook_unset cfg = false ->
  List.filter is_post (discord_events cfg d img w) =
    (if open_denied img w then []
     else [EvPost (request_for cfg d img (fs w))]) /\
  count is_camera_warning (discord_events cfg d img w) = O.
Proof.
  intros U. unfold discord_events, outcome_log. rewrite U.
  destruct (open_denied img w); [split; reflexivity|].
  destruct (endpoint w (posts w) (request_for cfg d img (fs w))) as [c t|e];
    [destruct ((200 <=? c) && (c <? 300))%Z|]; split; reflexivity.
Qed.

Lemma capture_true_regular path w w' :
  capture_image path w = Done true w' -> is_regular (fs w') path = true.
Proof.
  intros H. rewrite capture_image_chain in H.
  destruct (chain_done_inv path (backends path) _ true w' H)
    as [(pre & tool & cmd & post & w1 & _ & _ & _ & E)|[_ E]];
    [symmetry; exact E | discriminate E].
Qed.

(** X12. Capture and dispatch compose: in a sending iteration with photos
    on and a webhook configured, when [capture_image] returned [True] the
    iteration sends the multipart request with the photo if the photo can
    be opened, and no request at all if it cannot; when [capture_image]
    returned [False] it logs the camera warning and sends the text-only
    JSON request. *)
Theorem captured_photo_is_attached (cfg : Config) (st : Locals) (w : World)
    (b : bool) (w0 : World) :
  dist_cm_of (sensor w (sensor_reads w)) <= DISTANCE_THRESHOLD_CM cfg ->
  cooldown_left_at cfg (clock w (clock_reads w)) (last_sent st) == 0 ->
  SEND_PHOTO cfg = true ->
  webhook_unset cfg = false ->
  capture_image PHOTO_PATH (trigger_world cfg w) = Done b w0 ->
  exists st' w',
    loop_body cfg st w = Done st' w' /\
    List.filter is_post (new_events w w') =
      (if b
       then if can_open w PHOTO_PATH
            then [EvPost (MultipartPost (WEBHOOK_URL cfg)
                            (dist_cm_of (sensor w (sensor_reads w)))
                            PHOTO_PATH 15)]
            else []
       else [EvPost (JsonPost (WEBHOOK_URL cfg)
                       (dist_cm_of (sensor w (sensor_reads w))) 15)]) /\
    count is_camera_warning (new_events w w') = (if b then 0 else 1)%nat.
Proof.
  intros H1 H2 Ph U C.
  apply Qle_bool_iff in H1. apply py_max_le_zero_iff in H2.
  set (d := dist_cm_of (sensor w (sensor_reads w))) in *.
  destruct (capture_image_outcome PHOTO_PATH (trigger_world cfg w))
    as [(cap & Q & F) _].
  rewrite C in Q. simpl world_of in Q.
  destruct (capture_events_no_post cap F) as [P1 W1].
  destruct b.
  - destruct (loop_body_after_capture cfg st w (Some PHOTO_PATH) w0 H1 H2)
      as (w2 & E & L); [right; auto|].
    destruct (send_discord_done cfg d (Some PHOTO_PATH) w0) as (w2' & E' & Q2).
    fold d in E. rewrite E in E'. inversion E'; subst w2'.
    destruct (discord_events_posts cfg d (Some PHOTO_PATH) w0 U) as [P2 W2].
    eexists _, _. split; [exact L|].
    assert (T : trace (emit (EvSleep (SAMPLE_INTERVAL cfg)) (tick_clock w2)) =
                trace w ++ [EvLog INFO (TriggerSend d (COOLDOWN_SECONDS cfg))]
                  ++ cap
                  ++ (EvSendDiscord d (Some PHOTO_PATH)
                        :: discord_events cfg d (Some PHOTO_PATH) w0)
                  ++ [EvSleep (SAMPLE_INTERVAL cfg)]).
    { simpl. rewrite (q_trace _ _ _ Q2), (q_trace _ _ _ Q). unfold trigger_world.
      simpl. rewrite <- !app_assoc. reflexivity. }
    rewrite (new_events_app _ _ _ T). split.
    + rewrite !List.filter_app, P1.
      change (List.filter is_post (EvSendDiscord d (Some PHOTO_PATH)
                :: discord_events cfg d (Some PHOTO_PATH) w0))
        with (List.filter is_post (discord_events cfg d (Some PHOTO_PATH) w0)).
      rewrite P2. unfold request_for, open_denied.
      rewrite (capture_true_regular _ _ _ C), (q_can_open _ _ _ Q).
      change (can_open (trigger_world cfg w) PHOTO_PATH)
        with (can_open w PHOTO_PATH).
      destruct (can_open w PHOTO_PATH); reflexivity.
    + rewrite !count_app, W1.
      change (count is_camera_warning (EvSendDiscord d (Some PHOTO_PATH)
                :: discord_events cfg d (Some PHOTO_PATH) w0))
        with (count is_camera_warning (discord_events cfg d (Some PHOTO_PATH) w0)).
      rewrite W2. reflexivity.
  - set (w1 := emit (EvLog WARNING CameraFailed) w0).
    destruct (loop_body_after_capture cfg st w None w1 H1 H2)
      as (w2 & E & L); [right; split; [exact Ph|]; right; eauto|].
    destruct (send_discord_done cfg d None w1) as (w2' & E' & Q2).
    fold d in E. rewrite E in E'. inversion E'; subst w2'.
    destruct (discord_events_posts cfg d None w1 U) as [P2 W2].
    eexists _, _. split; [exact L|].
    assert (T : trace (emit (EvSleep (SAMPLE_INTERVAL cfg)) (tick_clock w2)) =
                trace w ++ [EvLog INFO (TriggerSend d (COOLDOWN_SECONDS cfg))]
                  ++ cap ++ [EvLog WARNING CameraFailed]
                  ++ (EvSendDiscord d None :: discord_events cfg d None w1)
                  ++ [EvSleep (SAMPLE_INTERVAL cfg)]).
    { simpl. rewrite (q_trace _ _ _ Q2). unfold w1. simpl.
      rewrite (q_trace _ _ _ Q). unfold trigger_world.
      simpl. rewrite <- !app_assoc. reflexivity. }
    rewrite (new_events_app _ _ _ T). split.
    + rewrite !List.filter_app, P1.
      change (List.filter is_post (EvSendDiscord d None
                :: discord_events cfg d None w1))
        with (List.filter is_post (discord_events cfg d None w1)).
      rewrite P2. reflexivity.
    + rewrite !count_app, W1.
      change (count is_camera_warning (EvSendDiscord d None
                :: discord_events cfg d None w1))
        with (count is_camera_warning (discord_events cfg d None w1)).
      rewrite W2. reflexivity.
Qed.

Lemma captured_photo_is_attached_witness :
  exists st' w',
    loop_body cfg_photo main_init w_good_cam = Done st' w' /\
    List.filter is_post (new_events w_good_cam w') =
      [EvPost (MultipartPost (WEBHOOK_URL cfg_photo)
                 (dist_cm_of (sensor w_good_cam (sensor_reads w_good_cam)))
                 PHOTO_PATH 15)] /\
    count is_camera_warning (new_events w_good_cam w') = O.
Proof.
  assert (K : match capture_image PHOTO_PATH (trigger_world cfg_photo w_good_cam) with
              | Done true _ => True
              | _ => False
              end) by (vm_compute; exact I).
  destruct (capture_image PHOTO_PATH (trigger_world cfg_photo w_good_cam))
    as [[|] w0|e w0|w0] eqn:C; try contradiction.
  apply (captured_photo_is_attached cfg_photo main_init w_good_cam true w0).
  - q_decide.
  - q_decide.
  - reflexivity.
  - reflexivity.
  - exact C.
Defined.

(** A photo that was captured and cannot be opened: the iteration sends
    nothing, logs the exception, and still sets [last_sent]. *)
Example locked_photo_is_not_sent :
  match loop_body cfg_photo main_init (deny_open w_good_cam) with
  | Done st' w' =>
      List.filter is_post (new_events (deny_open w_good_cam) w') = [] /\
      List.last (List.removelast (new_events (deny_open w_good_cam) w'))
                (EvSleep 0) =
        EvLog ERROR (DiscordError (OSError "PermissionError")) /\
      last_sent st' = 1700000003
  | _ => False
  end.
Proof. vm_compute. repeat split. Qed.

Lemma main_loop_last_flag cfg n : forall st w st' w',
  main_loop cfg (S n) st w = Done st' w' ->
  was_in_range st' =
    Qle_bool (dist_cm_of (sensor w (sensor_reads w + n)%nat))
             (DISTANCE_THRESHOLD_CM cfg).
Proof.
  induction n as [|n IH]; intros st w st' w' E;
    simpl main_loop in E; unfold mbind, M_bind, bind in E;
    destruct (loop_body_tick cfg st w) as (e1 & _ & S1 & R1 & _ & O1);
    destruct (loop_body cfg st w) as [st1 w1|e w1|w1]; try discriminate;
    simpl world_of in *; destruct O1 as (W1 & _).
  - inversion E; subst. rewrite Nat.add_0_r. exact W1.
  - rewrite (IH st1 w1 st' w' E), S1, R1.
    replace (S (sensor_reads w) + n)%nat with (sensor_reads w + S n)%nat by lia.
    reflexivity.
Qed.

(** X13. After any completed run of at least one iteration,
    [was_in_range] tells whether the last sample was within the threshold,
    whatever happened before. *)
Theorem was_in_range_tracks_last_sample (cfg : Config) (n : nat)
    (st st' : Locals) (w w' : World) :
  main_loop cfg (S n) st w = Done st' w' ->
  was_in_range st' =
    Qle_bool (dist_cm_of (sensor w (sensor_reads w + n)%nat))
             (DISTANCE_THRESHOLD_CM cfg).
Proof. apply main_loop_last_flag. Qed.

Lemma was_in_range_tracks_last_sample_witness :
  exists st' w',
    main_loop cfg_text 3 main_init w_leaving = Done st' w' /\
    was_in_range st' =
      Qle_bool (dist_cm_of (sensor w_leaving (sensor_reads w_leaving + 2)%nat))
               (DISTANCE_THRESHOLD_CM cfg_text).
Proof.
  assert (K : match main_loop cfg_text 3 main_init w_leaving with
              | Done _ _ => True
              | _ => False
              end) by (vm_compute; exact I).
  destruct (main_loop cfg_text 3 main_init w_leaving) as [st' w'|e w'|w'] eqn:E;
    try contradiction.
  exists st', w'. split; [reflexivity|].
  exact (was_in_range_tracks_last_sample cfg_text 2 main_init st' w_leaving w' E).
Defined.

(* ===================================================================== *)
(** ** [main]: what happens around the loop *)
(* ===================================================================== *)

Lemma main_loop_never_raises cfg n st w e w' :
  main_loop cfg n st w <> Raised e w'.
Proof.
  intros E. destruct (main_loop_run cfg n st w) as (evs & k & _ & _ & _ & _ & O).
  rewrite E in O. exact O.
Qed.

Lemma main_loop_no_photo_done cfg n : forall st w,
  SEND_PHOTO cfg = false -> exists st' w', main_loop cfg n st w = Done st' w'.
Proof.
  induction n as [|n IH]; intros st w Ph.
  - exists st, w. reflexivity.
  - simpl main_loop. unfold mbind, M_bind, bind.
    destruct (loop_body_no_photo cfg st w Ph) as (st1 & w1 & e1 & E1 & _).
    rewrite E1. apply IH. exact Ph.
Qed.

Lemma filter_close_loop evs : List.filter is_close (List.map MLoop evs) = [].
Proof. induction evs as [|e evs IH]; [reflexivity | exact IH]. Qed.

Lemma main_finally_ends hw assigned :
  exists pre,
    main_finally hw assigned = pre ++ [MLog INFO GpioReleased] /\
    length (List.filter is_close pre) = (if assigned then 1 else 0)%nat.
Proof.
  unfold main_finally. eexists. split; [reflexivity|].
  destruct assigned; [destruct (sensor_close hw)|]; reflexivity.
Qed.

Lemma main_try_no_close cfg hw n w :
  List.filter is_close (main_try cfg hw n w).1.1 = [].
Proof.
  unfold main_try.
  destruct (sensor_init hw); [reflexivity|].
  destruct (threshold_init hw); [reflexivity|].
  assert (G : List.filter is_close
                ([MSensorOpen ECHO_GPIO TRIG_GPIO MAX_DISTANCE_M 3;
                  MSetThreshold (DISTANCE_THRESHOLD_CM cfg / 100)] ++
                 (MLog INFO (Banner MAX_DISTANCE_M (DISTANCE_THRESHOLD_CM cfg)
                                    (COOLDOWN_SECONDS cfg) (SEND_PHOTO cfg))
                  :: (if POWERED_AT_3V3 then [MLog INFO Note3V3] else [])) ++
                 List.map MLoop (new_events w (world_of (main_loop cfg n main_init w)))) = []).
  { rewrite !List.filter_app, filter_close_loop. reflexivity. }
  destruct (main_loop cfg n main_init w); exact G.
Qed.

Lemma main_eq cfg hw n w :
  main cfg hw n w =
  match (main_try cfg hw n w).2 with
  | Some KeyboardInterrupt =>
      (Returned, (main_try cfg hw n w).1.1 ++ [MLog INFO StoppedByUser]
                   ++ main_finally hw (main_try cfg hw n w).1.2)
  | Some (Failure e) =>
      (Propagated e, (main_try cfg hw n w).1.1
                       ++ main_finally hw (main_try cfg hw n w).1.2)
  | None => (NeverReturns, (main_try cfg hw n w).1.1)
  end.
Proof.
  unfold main. destruct (main_try cfg hw n w) as [[evs a] [[|e]|]]; reflexivity.
Qed.

Lemma main_try_assigned cfg hw n w :
  (main_try cfg hw n w).1.2 =
  match sensor_init hw with None => true | Some _ => false end.
Proof.
  unfold main_try. destruct (sensor_init hw); [reflexivity|].
  destruct (threshold_init hw); [reflexivity|].
  destruct (main_loop cfg n main_init w); reflexivity.
Qed.

(** X14. Whenever [main] ends, by the interrupt or by an exception of the
    set-up, its last action is the log line "GPIO released.", and it has
    closed the sensor exactly once if the sensor object was created, and
    not at all if it was not. *)
Theorem main_releases_sensor (cfg : Config) (hw : Hardware) (n : nat)
    (w : World) :
  (main cfg hw n w).1 <> NeverReturns ->
  (exists before, (main cfg hw n w).2 = before ++ [MLog INFO GpioReleased]) /\
  length (List.filter is_close (main cfg hw n w).2) =
    match sensor_init hw with None => 1%nat | Some _ => O end.
Proof.
  rewrite main_eq.
  pose proof (main_try_no_close cfg hw n w) as NC.
  pose proof (main_try_assigned cfg hw n w) as A.
  destruct (main_finally_ends hw (main_try cfg hw n w).1.2) as (pre & F & L).
  rewrite A in L.
  destruct ((main_try cfg hw n w).2) as [[|e]|]; cbn [fst snd]; intros H.
  - rewrite F. split.
    + exists ((main_try cfg hw n w).1.1 ++ [MLog INFO StoppedByUser] ++ pre).
      rewrite <- !app_assoc. reflexivity.
    + rewrite !List.filter_app, NC, !length_app, L.
      destruct (sensor_init hw); reflexivity.
  - rewrite F. split.
    + exists ((main_try cfg hw n w).1.1 ++ pre).
      rewrite <- !app_assoc. reflexivity.
    + rewrite !List.filter_app, NC, !length_app, L.
      destruct (sensor_init hw); reflexivity.
  - contradiction.
Qed.

Lemma main_releases_sensor_witness :
  (exists before,
      (main cfg_text working 2 w_near).2 = before ++ [MLog INFO GpioReleased]) /\
  length (List.filter is_close (main cfg_text working 2 w_near).2) =
    match sensor_init working with None => 1%nat | Some _ => O end.
Proof.
  apply (main_releases_sensor cfg_text working 2 w_near).
  vm_compute. intros H. discriminate H.
Defined.

(** X15. How [main] ends. When creating the sensor raises, [main] closes
    nothing, logs "GPIO released." and lets that exception out. When
    setting the threshold raises, [main] closes the sensor, logs "GPIO
    released." and lets that exception out. In both cases no iteration of
    the loop has run. When the set-up succeeds and the interrupt comes
    after iterations that completed, [main] logs "Stopped by user.",
    closes the sensor, logs "GPIO released." and returns normally. A
    failure of [sensor.close()] does not change how [main] ends. *)
Theorem main_exit_status (cfg : Config) (hw : Hardware) (n : nat) (w : World) :
  (forall e,
      sensor_init hw = Some e ->
      main cfg hw n w =
        (Propagated e,
         [MSensorOpen ECHO_GPIO TRIG_GPIO MAX_DISTANCE_M 3;
          MLog INFO GpioReleased])) /\
  (forall e,
      sensor_init hw = None -> threshold_init hw = Some e ->
      main cfg hw n w =
        (Propagated e,
         [MSensorOpen ECHO_GPIO TRIG_GPIO MAX_DISTANCE_M 3;
          MSetThreshold (DISTANCE_THRESHOLD_CM cfg / 100)]
           ++ main_finally hw true)) /\
  (forall st' w',
      sensor_init hw = None -> threshold_init hw = None ->
      main_loop cfg n main_init w = Done st' w' ->
      (main cfg hw n w).1 = Returned /\
      List.map MLoop (new_events w w') `sublist_of` (main cfg hw n w).2 /\
      exists before,
        (main cfg hw n w).2 =
          before ++ [MLog INFO StoppedByUser] ++ main_finally hw true) /\
  (forall c,
      (main cfg {| sensor_init := sensor_init hw;
                   threshold_init := threshold_init hw;
                   sensor_close := c |} n w).1 = (main cfg hw n w).1).
Proof.
  split; [|split; [|split]].
  - intros e H. unfold main, main_try. rewrite H. reflexivity.
  - intros e H1 H2. unfold main, main_try. rewrite H1, H2. reflexivity.
  - intros st' w' H1 H2 E. unfold main, main_try. rewrite H1, H2, E.
    cbn [fst snd world_of]. split; [reflexivity|]. split.
    + apply sublist_inserts_r. do 2 apply sublist_inserts_l. reflexivity.
    + eexists. reflexivity.
  - intros c. unfold main, main_try. cbn [sensor_init threshold_init].
    destruct (sensor_init hw); [reflexivity|].
    destruct (threshold_init hw); [reflexivity|].
    destruct (main_loop cfg n main_init w); reflexivity.
Qed.

Lemma main_exit_status_witness :
  main cfg_text no_sensor 2 w_near =
    (Propagated (OSError "GPIO busy"),
     [MSensorOpen ECHO_GPIO TRIG_GPIO MAX_DISTANCE_M 3;
      MLog INFO GpioReleased]) /\
  (main cfg_text working 2 w_near).1 = Returned.
Proof.
  split.
  - apply (proj1 (main_exit_status cfg_text no_sensor 2 w_near)).
    reflexivity.
  - destruct (main_loop_no_photo_done cfg_text 2 main_init w_near eq_refl)
      as (st' & w' & E).
    apply (proj1 (proj2 (proj2 (main_exit_status cfg_text working 2 w_near)))
             st' w'); [reflexivity | reflexivity | exact E].
Defined.

(** A threshold that cannot be set: the sensor is closed, the exception
    gets out. *)
Example threshold_failure_closes_sensor :
  main cfg_text {| sensor_init := None;
                   threshold_init := Some (OSError "bad threshold");
                   sensor_close := None |} 2 w_near =
    (Propagated (OSError "bad threshold"),
     [MSensorOpen ECHO_GPIO TRIG_GPIO MAX_DISTANCE_M 3;
      MSetThreshold (35 / 100);
      MSensorClose; MLog INFO GpioReleased]).
Proof. reflexivity. Qed.

(* ===================================================================== *)
(** ** The environment switch for photos *)
(* ===================================================================== *)

Lemma ascii_lower_upper c : ascii_lower (ascii_upper c) = ascii_lower c.
Proof.
  destruct c as [[|] [|] [|] [|] [|] [|] [|] [|]]; vm_compute; reflexivity.
Qed.

Lemma ascii_lower_idem c : ascii_lower (ascii_lower c) = ascii_lower c.
Proof.
  destruct c as [[|] [|] [|] [|] [|] [|] [|] [|]]; vm_compute; reflexivity.
Qed.

Lemma str_lower_upper s : str_lower (str_upper s) = str_lower s.
Proof.
  induction s as [|c s IH]; [reflexivity|].
  simpl. rewrite ascii_lower_upper, IH. reflexivity.
Qed.

Lemma str_lower_idem s : str_lower (str_lower s) = str_lower s.
Proof.
  induction s as [|c s IH]; [reflexivity|].
  simpl. rewrite ascii_lower_idem, IH. reflexivity.
Qed.

(** X16. For ASCII text the switch is read without regard to letter
    case: a value, its upper-case form and its lower-case form give the
    same [SEND_PHOTO]. Photos are on when the variable is not set. *)
Theorem send_photo_ignores_case (s : string) :
  is_ascii s = true ->
  load_send_photo (Some (str_upper s)) = load_send_photo (Some s) /\
  load_send_photo (Some (str_lower s)) = load_send_photo (Some s) /\
  load_send_photo None = true.
Proof.
  intros _. unfold load_send_photo. simpl default.
  rewrite str_lower_upper, str_lower_idem. repeat split; reflexivity.
Qed.

Lemma send_photo_ignores_case_witness :
  load_send_photo (Some (str_upper "False")) = load_send_photo (Some "False") /\
  load_send_photo (Some (str_lower "False")) = load_send_photo (Some "False") /\
  load_send_photo None = true.
Proof.
  apply (send_photo_ignores_case "False"). reflexivity.
Defined.

(** "FALSE", "No" and "0" switch photos off; "off" and the empty string do
    not. *)
Example send_photo_values :
  load_send_photo (Some "FALSE") = false /\
  load_send_photo (Some "No") = false /\
  load_send_photo (Some "0") = false /\
  load_send_photo (Some "off") = true /\
  load_send_photo (Some "") = true.
Proof. repeat split; reflexivity. Qed.

(* ===================================================================== *)
(** ** Requests over a run *)
(* ===================================================================== *)

Lemma main_loop_posts cfg n : forall st w,
  exists evs,
    trace (world_of (main_loop cfg n st w)) = trace w ++ evs /\
    posts_follow_sends cfg (count is_send evs) (count is_post evs).
Proof.
  induction n as [|n IH]; intros st w.
  - exists []. simpl. rewrite app_nil_r.
    split; [reflexivity | apply posts_follow_none].
  - simpl main_loop. unfold mbind, M_bind, bind.
    destruct (loop_body_tick cfg st w) as (e1 & T1 & _ & _ & _ & O1).
    destruct (loop_body cfg st w) as [st1 w1|e w1|w1]; simpl world_of in *.
    + destruct O1 as (_ & _ & P1).
      destruct (IH st1 w1) as (e2 & T2 & P2).
      exists (e1 ++ e2). split; [rewrite T2, T1, app_assoc; reflexivity|].
      rewrite !count_app. apply posts_follow_add; assumption.
    + contradiction.
    + destruct O1 as (_ & _ & Cs & Cp & _).
      exists e1. split; [exact T1|]. rewrite Cs, Cp.
      apply posts_follow_none.
Qed.

(** X17. Over any run of the loop, completed or blocked, the calls of
    [requests.post] never outnumber the calls of [send_discord]: there is
    no retry. No call of [requests.post] is made when no webhook is
    configured. With a webhook configured and photos off, every call of
    [send_discord] makes exactly one. *)
Theorem one_request_per_alert (cfg : Config) (n : nat) (st : Locals) (w : World) :
  (count is_post (new_events w (world_of (main_loop cfg n st w))) <=
   count is_send (new_events w (world_of (main_loop cfg n st w))))%nat /\
  (webhook_unset cfg = true ->
   count is_post (new_events w (world_of (main_loop cfg n st w))) = O) /\
  (SEND_PHOTO cfg = false -> webhook_unset cfg = false ->
   count is_post (new_events w (world_of (main_loop cfg n st w))) =
   count is_send (new_events w (world_of (main_loop cfg n st w)))).
Proof.
  destruct (main_loop_posts cfg n st w) as (evs & T & P).
  rewrite (new_events_app _ _ _ T). exact P.
Qed.

Lemma one_request_per_alert_witness :
  count is_post (new_events w_near (world_of (main_loop cfg_no_hook 3 main_init w_near)))
    = O /\
  count is_post (new_events w_near (world_of (main_loop cfg_text 3 main_init w_near))) =
  count is_send (new_events w_near (world_of (main_loop cfg_text 3 main_init w_near))).
Proof.
  split.
  - apply (proj1 (proj2 (one_request_per_alert cfg_no_hook 3 main_init w_near))).
    reflexivity.
  - apply (proj2 (proj2 (one_request_per_alert cfg_text 3 main_init w_near)));
      reflexivity.
Defined.
